(** * VessMorphoVis: morphology statistics kernels and distribution writers

    A shallow embedding of

      - [vmv/analysis/kernels/sections.py]  (module [Sections]),
      - [vmv/analysis/kernels/samples.py]   (module [Samples]),
      - [vmv/file/writers/strings/strings.py] (module [Writers]),

    followed by the properties of these functions.

    Numbers.  Python floats are idealised as real numbers ([R]); [math.pi]
    is [PI] and [math.sqrt] is [sqrt].  Comparisons of numbers are the
    boolean tests [Rltb] and [Rgtb] obtained from the decidable order of [R].

    Objects.  Samples are mutable objects.  Module [InPlace] runs
    [correct_samples_with_zero_radii] statement by statement on a store of
    sample objects, where one object may belong to several sections.
    [Samples.correct_samples_with_zero_radii] is the function on sections
    lists that this run computes when no sample object belongs to two
    sections ([in_place_agrees]). *)

From Stdlib Require Import Reals Lra Lia List Arith ZArith Bool String Ascii.
From Stdlib Require Import DecimalString DecimalZ DecimalPos.
Import ListNotations.

Open Scope R_scope.

(** ** Numbers *)

Definition Rltb (a b : R) : bool := if Rlt_dec a b then true else false.
Definition Rgtb (a b : R) : bool := Rltb b a.

(** ** Exceptions

    The built-ins that can raise on the inputs considered here: [min] and
    [max] of an empty sequence raise [ValueError], a division by zero raises
    [ZeroDivisionError]. *)

Inductive PyError : Type := ValueError | ZeroDivisionError.

Inductive result (A : Type) : Type :=
| Ok (value : A)
| Raise (e : PyError).
Arguments Ok {A} value.
Arguments Raise {A} e.

Definition bind {A B : Type} (m : result A) (k : A -> result B) : result B :=
  match m with
  | Ok a => k a
  | Raise e => Raise e
  end.

Notation "x <- m ;; k" := (bind m (fun x => k))
  (at level 61, m at next level, right associativity).

(** [a / b] *)
Definition py_div (a b : R) : result R :=
  if Req_dec_T b 0 then Raise ZeroDivisionError else Ok (a / b).

(** [min(l)]: the first item is the initial candidate, a later item
    replaces it when it compares strictly smaller. *)
Definition py_min (l : list R) : result R :=
  match l with
  | [] => Raise ValueError
  | first :: rest =>
      Ok (fold_left (fun best item => if Rltb item best then item else best)
                    rest first)
  end.

(** [max(l)]: as [min], with [>]. *)
Definition py_max (l : list R) : result R :=
  match l with
  | [] => Raise ValueError
  | first :: rest =>
      Ok (fold_left (fun best item => if Rgtb item best then item else best)
                    rest first)
  end.

(** [sum(l)] *)
Definition py_sum (l : list R) : R := fold_left Rplus l 0.

(** ** [mathutils.Vector]: the three-component vectors of the sample points *)

Module Mathutils.

Record Vector : Type := mkVector { x : R; y : R; z : R }.

(** [p - q] *)
Definition sub (p q : Vector) : Vector :=
  {| x := x p - x q; y := y p - y q; z := z p - z q |}.

(** [v.length] *)
Definition length (v : Vector) : R :=
  sqrt (x v * x v + y v * y v + z v * z v).

End Mathutils.

(** ** Data model *)

Record Sample : Type := mkSample { point : Mathutils.Vector; radius : R }.

Record Section : Type := mkSection { samples : list Sample }.

Record Morphology : Type := mkMorphology { sections_list : list Section }.

(** [sample.radius = r] *)
Definition set_radius (sample : Sample) (r : R) : Sample :=
  {| point := point sample; radius := r |}.

(** Indexing.  [l[i]] is only evaluated by the code below at indices that
    the enclosing loop or guard keeps in range (see [range_index_in_bounds]);
    the default sample is never returned there. *)
Definition no_sample : Sample :=
  {| point := Mathutils.mkVector 0 0 0; radius := 0 |}.

Definition item (l : list Sample) (i : nat) : Sample := nth i l no_sample.

(** [l[-1]] *)
Definition item_last (l : list Sample) : Sample := last l no_sample.

(** [range(n - 1)] for [n = len(...)]: empty when [n] is 0 or 1, as in
    Python, where [range(-1)] is empty. *)
Definition range_pred (n : nat) : list nat := seq 0 (n - 1).

(** ** [vmv/analysis/kernels/sections.py] *)

Module Sections.

Definition compute_section_length (section : Section) : R :=
  fold_left
    (fun section_length i =>
       let p0 := point (item (samples section) i) in
       let p1 := point (item (samples section) (i + 1)) in
       let segment_length := Mathutils.length (Mathutils.sub p0 p1) in
       section_length + segment_length)
    (range_pred (List.length (samples section)))
    0.

Definition compute_section_average_radius (section : Section) : result R :=
  let average_radius :=
    fold_left (fun average_radius i_sample => average_radius + radius i_sample)
              (samples section) 0 in
  py_div average_radius (INR (List.length (samples section))).

Definition is_short_section (section : Section) : bool :=
  if (1 <? List.length (samples section))%nat then
    let diameters_sum :=
      (radius (item (samples section) 0)
       + radius (item_last (samples section))) * 2 in
    let section_length := compute_section_length section in
    if Rltb section_length diameters_sum then true else false
  else false.

Definition compute_number_of_short_sections (sections_list : list Section) : nat :=
  fold_left
    (fun number_short_sections section =>
       if is_short_section section then (number_short_sections + 1)%nat
       else number_short_sections)
    sections_list 0%nat.

Definition compute_number_of_sections_with_two_samples
           (sections_list : list Section) : nat :=
  fold_left
    (fun number_section_with_two_samples section =>
       if (List.length (samples section) =? 2)%nat
       then (number_section_with_two_samples + 1)%nat
       else number_section_with_two_samples)
    sections_list 0%nat.

Definition compute_total_number_sections (sections_list : list Section) : nat :=
  List.length sections_list.

Definition compute_section_surface_area (section : Section) : R :=
  let section_surface_area := 0 in
  if (List.length (samples section) <? 2)%nat then section_surface_area
  else
    fold_left
      (fun section_surface_area i =>
         let p0 := point (item (samples section) i) in
         let p1 := point (item (samples section) (i + 1)) in
         let r0 := radius (item (samples section) i) in
         let r1 := radius (item (samples section) (i + 1)) in
         let segment_length := Mathutils.length (Mathutils.sub p0 p1) in
         let r_sum := r0 + r1 in
         let r_diff := r0 - r1 in
         let segment_lateral_area :=
           PI * r_sum * sqrt ((r_diff * r_diff) + segment_length) in
         section_surface_area
         + (segment_lateral_area + PI * ((r0 * r0) + (r1 * r1))))
      (range_pred (List.length (samples section)))
      section_surface_area.

Definition compute_section_volume (section : Section) : R :=
  let section_volume := 0 in
  if (List.length (samples section) <? 2)%nat then section_volume
  else
    fold_left
      (fun section_volume i =>
         let p0 := point (item (samples section) i) in
         let p1 := point (item (samples section) (i + 1)) in
         let r0 := radius (item (samples section) i) in
         let r1 := radius (item (samples section) (i + 1)) in
         section_volume
         + (1 / 3) * PI * Mathutils.length (Mathutils.sub p0 p1)
           * (r0 * r0 + r0 * r1 + r1 * r1))
      (range_pred (List.length (samples section)))
      section_volume.

Definition compute_sections_length_distributions (morphology_object : Morphology)
  : list R :=
  fold_left (fun data i_section => data ++ [compute_section_length i_section])
            (sections_list morphology_object) [].

Definition compute_sections_surface_area_distribution
           (morphology_object : Morphology) : list R :=
  fold_left (fun data i_section => data ++ [compute_section_surface_area i_section])
            (sections_list morphology_object) [].

Definition compute_sections_volume_distribution (morphology_object : Morphology)
  : list R :=
  fold_left (fun data i_section => data ++ [compute_section_volume i_section])
            (sections_list morphology_object) [].

(** [vmv.analysis.compute_section_average_radius] is the function above,
    reached through the package; the loop stops at the first section on
    which it raises. *)
Definition compute_sections_average_radius_distributions
           (morphology_object : Morphology) : result (list R) :=
  fold_left
    (fun data i_section =>
       data <- data ;;
       average_radius <- compute_section_average_radius i_section ;;
       Ok (data ++ [average_radius]))
    (sections_list morphology_object) (Ok []).

Definition analyze_sections_length (sections_list : list Section)
  : result (R * R * R) :=
  let sections_lengths :=
    fold_left
      (fun sections_lengths section =>
         let section_length := compute_section_length section in
         sections_lengths ++ [section_length])
      sections_list [] in
  minimum_section_length <- py_min sections_lengths ;;
  maximum_section_length <- py_max sections_lengths ;;
  average_section_length <-
    py_div (py_sum sections_lengths) (1 * INR (List.length sections_lengths)) ;;
  Ok (minimum_section_length, maximum_section_length, average_section_length).

End Sections.

(** ** [pandas.DataFrame]: a table of numbers under named columns *)

Module Pandas.

Record DataFrame : Type :=
  mkDataFrame { columns : list string; rows : list (list R) }.

End Pandas.

(** ** [vmv/analysis/kernels/samples.py] *)

Module Samples.

Definition compute_number_of_samples_in_section (section : Section) : nat :=
  List.length (samples section).

Definition compute_total_of_number_samples_from_sections_list
           (sections_list : list Section) : nat :=
  fold_left
    (fun morphology_total_number_of_samples section =>
       let number_of_samples_in_section :=
         compute_number_of_samples_in_section section in
       (morphology_total_number_of_samples + number_of_samples_in_section)%nat)
    sections_list 0%nat.

Definition compute_number_of_samples_per_section_distribution
           (morphology_object : Morphology) : list nat :=
  fold_left (fun data i_section => data ++ [List.length (samples i_section)])
            (sections_list morphology_object) [].

Definition compute_sample_radius_distribution (morphology_object : Morphology)
  : list R :=
  fold_left
    (fun data i_section =>
       fold_left (fun data i_sample => data ++ [radius i_sample])
                 (samples i_section) data)
    (sections_list morphology_object) [].

(** [position[0]], [position[1]] and [position[2]] are the components of
    the point. *)
Definition compute_sample_radius_distribution_along_axes
           (morphology_object : Morphology) : Pandas.DataFrame :=
  let data :=
    fold_left
      (fun data i_section =>
         fold_left
           (fun data i_sample =>
              let position := point i_sample in
              data ++ [[radius i_sample; Mathutils.x position;
                        Mathutils.y position; Mathutils.z position]])
           (samples i_section) data)
      (sections_list morphology_object) [] in
  Pandas.mkDataFrame ["Radius"; "X"; "Y"; "Z"]%string data.

Definition analyze_samples_with_zero_radii (radii_list : list R) (epsilon : R)
  : nat :=
  fold_left
    (fun zero_radii_samples radius =>
       if Rltb radius epsilon then (zero_radii_samples + 1)%nat
       else zero_radii_samples)
    radii_list 0%nat.

(** The body of the loop over the sections, for a section that has at
    least one sample: the mean is computed first, over the radii as they
    are when the section is reached, and then assigned to the samples
    below the threshold. *)
Definition correct_section (section : Section) (epsilon : R) : Section :=
  let mean_radius :=
    fold_left (fun mean_radius sample => mean_radius + radius sample)
              (samples section) 0 in
  let mean_radius := mean_radius / INR (List.length (samples section)) in
  {| samples :=
       map (fun sample =>
              if Rltb (radius sample) epsilon
              then set_radius sample mean_radius
              else sample)
           (samples section) |}.

(** The sections list as it stands when the call returns.  The [return]
    on an empty section leaves that section and all its successors as
    they are. *)
Fixpoint correct_samples_with_zero_radii
         (sections_list : list Section) (epsilon : R) : list Section :=
  match sections_list with
  | [] => []
  | section :: remaining =>
      if (List.length (samples section) =? 0)%nat then section :: remaining
      else correct_section section epsilon
           :: correct_samples_with_zero_radii remaining epsilon
  end.

Definition analyze_samples_radii (sections_list : list Section) (epsilon : R)
  : result (R * R * R * nat) :=
  let radii_list :=
    flat_map (fun section => map (fun sample => radius sample) (samples section))
             sections_list in
  let zero_radii := filter (fun radius => Rltb radius epsilon) radii_list in
  minimum_sample_radius <- py_min radii_list ;;
  maximum_sample_radius <- py_max radii_list ;;
  average_sample_radius <-
    py_div (py_sum radii_list) (1 * INR (List.length radii_list)) ;;
  Ok (minimum_sample_radius, maximum_sample_radius, average_sample_radius,
      List.length zero_radii).

End Samples.

(** ** [correct_samples_with_zero_radii] on a store of sample objects

    The same function, statement by statement, on sample objects behind
    references: a section lists the references of its samples, the store
    holds the object of each reference, and [sample.radius = mean_radius]
    updates the store.  [in_place_agrees] relates this run to
    [Samples.correct_samples_with_zero_radii]. *)

Module InPlace.

Definition ref : Type := nat.

Definition Store : Type := ref -> Sample.

(** [sample.radius = r] *)
Definition assign_radius (sample : ref) (r : R) (store : Store) : Store :=
  fun o => if (o =? sample)%nat then set_radius (store sample) r else store o.

Definition correct_section (section : list ref) (epsilon : R) (store : Store)
  : Store :=
  let mean_radius :=
    fold_left (fun mean_radius sample => mean_radius + radius (store sample))
              section 0 in
  let mean_radius := mean_radius / INR (List.length section) in
  fold_left
    (fun store sample =>
       if Rltb (radius (store sample)) epsilon
       then assign_radius sample mean_radius store
       else store)
    section store.

Fixpoint correct_samples_with_zero_radii
         (sections_list : list (list ref)) (epsilon : R) (store : Store)
  : Store :=
  match sections_list with
  | [] => store
  | section :: remaining =>
      if (List.length section =? 0)%nat then store
      else correct_samples_with_zero_radii
             remaining epsilon (correct_section section epsilon store)
  end.

(** The sections list as a store shows it. *)
Definition read (store : Store) (sections_list : list (list ref))
  : list Section :=
  map (fun section => {| samples := map store section |}) sections_list.

(** No sample object belongs to two sections. *)
Definition separate (sections_list : list (list ref)) : Prop :=
  ForallOrdPairs (fun a b => forall o, In o a -> ~ In o b) sections_list.

End InPlace.

(** ** [vmv/file/writers/strings/strings.py] *)

Module Writers.

(** The files: a path is bound to the text of its file, or to nothing.
    Failures of the host file system are outside this model: [open]
    succeeds. *)
Definition FileSystem : Type := string -> option string.

Record FileHandle : Type := mkFileHandle { name : string }.

(** The line terminator ['\n'] *)
Definition newline : string := String (ascii_of_nat 10) EmptyString.

(** [open(file_path, 'w')]: the file is created, or truncated. *)
Definition open_w (file_path : string) (fs : FileSystem)
  : FileHandle * FileSystem :=
  (mkFileHandle file_path,
   fun p => if String.eqb p file_path then Some EmptyString else fs p).

(** [file_handle.write(text)]: the text goes to the end of the file. *)
Definition write (file_handle : FileHandle) (text : string) (fs : FileSystem)
  : FileSystem :=
  fun p =>
    if String.eqb p (name file_handle)
    then match fs p with
         | Some content => Some (content ++ text)%string
         | None => None
         end
    else fs p.

(** [file_handle.close()] *)
Definition close (file_handle : FileHandle) (fs : FileSystem) : FileSystem := fs.

Definition write_string_to_file (string : string) (file_path : String.string)
           (fs : FileSystem) : FileSystem :=
  let '(file_handle, fs) := open_w file_path fs in
  let fs := write file_handle string fs in
  close file_handle fs.

Definition write_list_string_to_file (list_strings : list string)
           (file_path : string) (fs : FileSystem) : FileSystem :=
  let '(file_handle, fs) := open_w file_path fs in
  let fs :=
    fold_left (fun fs string => write file_handle (string ++ newline)%string fs)
              list_strings fs in
  close file_handle fs.

Section Distribution.

(** The elements of a distribution and the built-in [str] on them. *)
Context {V : Type} (str : V -> string).

Definition write_distribution_to_file (distribution : list V)
           (file_path : string) (fs : FileSystem) : FileSystem :=
  let '(file_handle, fs) := open_w file_path fs in
  let fs :=
    fold_left
      (fun fs element => write file_handle (str element ++ newline)%string fs)
      distribution fs in
  close file_handle fs.

End Distribution.

End Writers.

(** * Reference definitions

    The notions the properties are stated with: the segments of a section,
    sums, the geometry of a tapered cylinder, the outcome of the radius
    correction, and the lines of a text. *)

(** The segments of a section: the pairs of consecutive samples, in order. *)
Fixpoint segments (l : list Sample) : list (Sample * Sample) :=
  match l with
  | s0 :: (s1 :: _) as tail => (s0, s1) :: segments tail
  | _ => []
  end.

(** Sum of a list of numbers. *)
Definition Rsum (l : list R) : R := fold_right Rplus 0 l.

(** Euclidean distance between two points. *)
Definition distance (p q : Mathutils.Vector) : R :=
  sqrt ((Mathutils.x p - Mathutils.x q) ^ 2
        + (Mathutils.y p - Mathutils.y q) ^ 2
        + (Mathutils.z p - Mathutils.z q) ^ 2).

(** Euclidean length of a segment. *)
Definition segment_length (s : Sample * Sample) : R :=
  distance (point (fst s)) (point (snd s)).

(** Lateral area of a tapered cylinder with end radii [r0], [r1] and
    length [L]. *)
Definition lateral_area (r0 r1 L : R) : R :=
  PI * (r0 + r1) * sqrt ((r0 - r1) ^ 2 + L ^ 2).

(** Area of the two end caps. *)
Definition caps_area (r0 r1 : R) : R := PI * (r0 ^ 2 + r1 ^ 2).

(** Volume of a tapered cylinder. *)
Definition frustum_volume (r0 r1 L : R) : R :=
  (PI / 3) * L * (r0 ^ 2 + r0 * r1 + r1 ^ 2).

(** Surface area of a section, segment by segment. *)
Definition segments_surface_area (section : Section) : R :=
  Rsum (map (fun s => lateral_area (radius (fst s)) (radius (snd s))
                                   (segment_length s)
                      + caps_area (radius (fst s)) (radius (snd s)))
            (segments (samples section))).

(** What the surface-area loop adds for a segment: the square root is
    taken of [(r0 - r1)^2 + L]. *)
Definition coded_segment_area (s : Sample * Sample) : R :=
  PI * (radius (fst s) + radius (snd s))
  * sqrt ((radius (fst s) - radius (snd s)) ^ 2 + segment_length s)
  + caps_area (radius (fst s)) (radius (snd s)).

(** A section with one segment of length 4 between two samples of radius 1. *)
Definition surface_area_probe : Section :=
  {| samples := [ mkSample (Mathutils.mkVector 0 0 0) 1;
                  mkSample (Mathutils.mkVector 4 0 0) 1 ] |}.

(** Volume of a section, segment by segment. *)
Definition segments_volume (section : Section) : R :=
  Rsum (map (fun s => frustum_volume (radius (fst s)) (radius (snd s))
                                     (segment_length s))
            (segments (samples section))).

(** Number of samples of a sections list. *)
Definition total_samples (sections_list : list Section) : nat :=
  list_sum (map (fun section => List.length (samples section)) sections_list).

(** The radii of a sections list, in section order then sample order. *)
Definition radii_of (sections_list : list Section) : list R :=
  flat_map (fun section => map radius (samples section)) sections_list.

(** Mean radius of a section. *)
Definition mean_radius (section : Section) : R :=
  Rsum (map radius (samples section)) / INR (List.length (samples section)).

(** A sample after the correction, against the same sample before it:
    below the threshold it holds the mean, otherwise its own radius; its
    point is untouched. *)
Definition corrected_sample (mean epsilon : R) (before after : Sample) : Prop :=
  point after = point before
  /\ (radius before < epsilon -> radius after = mean)
  /\ (epsilon <= radius before -> radius after = radius before).

(** A section after the correction, sample by sample, with the mean of the
    radii the section had before. *)
Definition corrected_section (epsilon : R) (before after : Section) : Prop :=
  Forall2 (corrected_sample (mean_radius before) epsilon)
          (samples before) (samples after).

(** What the assignment loop of a section does to a sample. *)
Definition corrected (mean epsilon : R) (sample : Sample) : Sample :=
  if Rltb (radius sample) epsilon then set_radius sample mean else sample.

(** Number of radii strictly below [epsilon]. *)
Fixpoint count_below (epsilon : R) (radii : list R) : nat :=
  match radii with
  | [] => 0
  | r :: radii =>
      if Rlt_dec r epsilon then S (count_below epsilon radii)
      else count_below epsilon radii
  end.

(** The text of a distribution: the string form of each value followed
    by the line terminator, in order. *)
Definition distribution_text {V : Type} (str : V -> string)
           (distribution : list V) : string :=
  fold_right (fun value text => (str value ++ Writers.newline ++ text)%string)
             EmptyString distribution.

(** A string without a line terminator in it. *)
Fixpoint single_line (s : string) : bool :=
  match s with
  | EmptyString => true
  | String c s => negb (Ascii.eqb c (ascii_of_nat 10)) && single_line s
  end.

(** Reading a text back line by line, the terminators dropped. *)
Fixpoint lines (text : string) : list string :=
  match text with
  | EmptyString => []
  | String c text =>
      if Ascii.eqb c (ascii_of_nat 10) then EmptyString :: lines text
      else match lines text with
           | [] => [String c EmptyString]
           | line :: others => String c line :: others
           end
  end.

(** The built-in [str] on the integers: decimal digits, with a minus sign
    for the negative ones. *)
Definition str_int (n : Z) : string :=
  DecimalString.NilZero.string_of_int (Z.to_int n).

(** Parsing a line as an integer. *)
Definition parse_int (line : string) : option Z :=
  option_map Z.of_int (DecimalString.NilZero.int_of_string line).

(** The row of a sample in the table of radii along the axes. *)
Definition sample_row (sample : Sample) : list R :=
  [ radius sample; Mathutils.x (point sample); Mathutils.y (point sample);
    Mathutils.z (point sample) ].

(** A store in which the sample objects 0, 1 and 2 have the radii 0, 2
    and 4. *)
Definition three_samples : InPlace.Store :=
  fun o => mkSample (Mathutils.mkVector (INR o) 0 0)
                    (match o with 0%nat => 0 | 1%nat => 2 | _ => 4 end).



(** * Loops over the segments *)

Section SegmentLoops.

Context {A : Type} (step : A -> Sample -> Sample -> A).

(** A loop [for i in range(len(l) - 1)] that reads [l[i]] and [l[i + 1]]
    visits the segments of [l] in order.  The statement is generalised
    to a list that follows a prefix already walked. *)
Lemma fold_range_after_prefix (l prefix : list Sample) (acc : A) :
  fold_left (fun acc i => step acc (item (prefix ++ l) i)
                               (item (prefix ++ l) (i + 1)))
            (seq (List.length prefix) (List.length l - 1)) acc
  = fold_left (fun acc s => step acc (fst s) (snd s)) (segments l) acc.
Proof.
  revert prefix acc.
  induction l as [| s0 l IH]; intros prefix acc; [reflexivity |].
  destruct l as [| s1 l]; [reflexivity |].
  replace (List.length (s0 :: s1 :: l) - 1)%nat
    with (S (List.length (s1 :: l) - 1)) by (simpl; lia).
  change (segments (s0 :: s1 :: l)) with ((s0, s1) :: segments (s1 :: l)).
  cbn [seq fold_left fst snd].
  assert (H0 : item (prefix ++ s0 :: s1 :: l) (List.length prefix) = s0).
  { unfold item. rewrite app_nth2 by lia. now rewrite Nat.sub_diag. }
  assert (H1 : item (prefix ++ s0 :: s1 :: l) (List.length prefix + 1) = s1).
  { unfold item. rewrite app_nth2 by lia.
    now replace (List.length prefix + 1 - List.length prefix)%nat
      with 1%nat by lia. }
  rewrite H0, H1.
  specialize (IH (prefix ++ [s0]) (step acc s0 s1)).
  rewrite <- app_assoc in IH. cbn [app] in IH.
  rewrite length_app in IH. cbn [List.length] in IH.
  rewrite Nat.add_1_r in IH.
  exact IH.
Qed.

Lemma fold_range_segments (l : list Sample) (acc : A) :
  fold_left (fun acc i => step acc (item l i) (item l (i + 1)))
            (range_pred (List.length l)) acc
  = fold_left (fun acc s => step acc (fst s) (snd s)) (segments l) acc.
Proof. exact (fold_range_after_prefix l [] acc). Qed.

End SegmentLoops.

(** Every index the loops read is in range. *)
Lemma range_index_in_bounds (l : list Sample) (i : nat) :
  In i (range_pred (List.length l)) ->
  (i < List.length l)%nat /\ (i + 1 < List.length l)%nat.
Proof. unfold range_pred. rewrite in_seq. lia. Qed.

(** An accumulating loop computes the sum of what it adds. *)
Lemma fold_left_add_Rsum {B : Type} (f : B -> R) (l : list B) (acc : R) :
  fold_left (fun acc b => acc + f b) l acc = acc + Rsum (map f l).
Proof.
  revert acc; induction l as [| b l IH]; intros acc; simpl.
  - lra.
  - rewrite IH. lra.
Qed.

Lemma length_sub_distance (p q : Mathutils.Vector) :
  Mathutils.length (Mathutils.sub p q) = distance p q.
Proof.
  unfold Mathutils.length, Mathutils.sub, distance; simpl.
  f_equal. ring.
Qed.

Lemma segments_few (l : list Sample) :
  (List.length l < 2)%nat -> segments l = [].
Proof.
  destruct l as [| s0 [| s1 l]]; simpl; intros H; try reflexivity; lia.
Qed.

Lemma section_length_segments (section : Section) :
  Sections.compute_section_length section
  = Rsum (map segment_length (segments (samples section))).
Proof.
  unfold Sections.compute_section_length.
  rewrite (fold_range_segments
             (fun acc s0 s1 =>
                acc + Mathutils.length (Mathutils.sub (point s0) (point s1)))).
  rewrite (fold_left_add_Rsum
             (fun s => Mathutils.length
                         (Mathutils.sub (point (fst s)) (point (snd s))))).
  rewrite Rplus_0_l. f_equal.
  apply map_ext; intros s. apply length_sub_distance.
Qed.

Lemma sqrt_eq (a b : R) : 0 <= a -> b = a * a -> sqrt b = a.
Proof. intros Ha ->. now apply sqrt_square. Qed.

Lemma Rltb_true_iff (a b : R) : Rltb a b = true <-> a < b.
Proof. unfold Rltb. destruct (Rlt_dec a b); split; intros; easy. Qed.

Lemma Rltb_false_iff (a b : R) : Rltb a b = false <-> b <= a.
Proof.
  unfold Rltb. destruct (Rlt_dec a b); split; intros; try easy; lra.
Qed.

(** Two samples or more: a first sample, a last one, and what lies between. *)
Lemma two_samples_ends (l : list Sample) :
  (2 <= List.length l)%nat ->
  exists first middle last, l = first :: middle ++ [last].
Proof.
  destruct l as [| first l]; simpl; [lia |].
  intros H. exists first.
  destruct (exists_last (l := l)) as (middle & last & ->).
  - destruct l; simpl in *; [lia | discriminate].
  - now exists middle, last.
Qed.

(** * Properties of [sections.py] *)

(** C5: [compute_section_length] returns the sum of the Euclidean distances
    between consecutive samples; it returns 0 for a section with 0 or 1
    samples; for a section with samples at (0,0,0) and (3,4,0) it returns 5. *)
Theorem compute_section_length_spec (section : Section) :
  Sections.compute_section_length section
  = Rsum (map segment_length (segments (samples section)))
  /\ ((List.length (samples section) <= 1)%nat ->
      Sections.compute_section_length section = 0)
  /\ (forall r0 r1,
         samples section = [ mkSample (Mathutils.mkVector 0 0 0) r0;
                             mkSample (Mathutils.mkVector 3 4 0) r1 ] ->
         Sections.compute_section_length section = 5).
Proof.
  split; [apply section_length_segments |].
  split.
  - intros H. rewrite section_length_segments.
    rewrite segments_few by lia. reflexivity.
  - intros r0 r1 H. rewrite section_length_segments, H.
    unfold segment_length, distance.
    cbn [map segments fst snd point Rsum fold_right
         Mathutils.x Mathutils.y Mathutils.z].
    rewrite (sqrt_eq 5); lra.
Qed.

Lemma compute_section_length_spec_witness :
  Sections.compute_section_length
    {| samples := [ mkSample (Mathutils.mkVector 0 0 0) 1;
                    mkSample (Mathutils.mkVector 3 4 0) 2 ] |} = 5
  /\ Sections.compute_section_length
       {| samples := [ mkSample (Mathutils.mkVector 1 2 3) 1 ] |} = 0.
Proof.
  split.
  - apply (proj2 (proj2 (compute_section_length_spec _)) 1 2). reflexivity.
  - apply (proj1 (proj2 (compute_section_length_spec _))). simpl. lia.
Defined.

(** What the surface-area loop computes, for every section. *)
Lemma surface_area_coded (section : Section) :
  Sections.compute_section_surface_area section
  = Rsum (map coded_segment_area (segments (samples section))).
Proof.
  unfold Sections.compute_section_surface_area.
  destruct (List.length (samples section) <? 2)%nat eqn:Hlen.
  - apply Nat.ltb_lt in Hlen. now rewrite segments_few.
  - rewrite (fold_range_segments
               (fun acc s0 s1 =>
                  acc + (PI * (radius s0 + radius s1)
                         * sqrt ((radius s0 - radius s1) * (radius s0 - radius s1)
                                 + Mathutils.length
                                     (Mathutils.sub (point s0) (point s1)))
                         + PI * (radius s0 * radius s0 + radius s1 * radius s1)))).
    rewrite (fold_left_add_Rsum
               (fun s =>
                  PI * (radius (fst s) + radius (snd s))
                  * sqrt ((radius (fst s) - radius (snd s))
                          * (radius (fst s) - radius (snd s))
                          + Mathutils.length
                              (Mathutils.sub (point (fst s)) (point (snd s))))
                  + PI * (radius (fst s) * radius (fst s)
                          + radius (snd s) * radius (snd s)))).
    rewrite Rplus_0_l. f_equal.
    apply map_ext; intros s.
    unfold coded_segment_area, caps_area, segment_length.
    rewrite length_sub_distance.
    f_equal; [f_equal; f_equal |]; ring.
Qed.

(** C1: on a single segment of length 4 with both radii 1,
    [compute_section_surface_area] returns 6*pi, whereas the lateral area
    pi*(r0+r1)*sqrt((r0-r1)^2 + L^2) plus the cap term pi*(r0^2+r1^2) is
    10*pi: the loop takes the square root of (r0-r1)^2 + L. *)
Theorem compute_section_surface_area_probe :
  Sections.compute_section_surface_area surface_area_probe = 6 * PI
  /\ segments_surface_area surface_area_probe = 10 * PI
  /\ Sections.compute_section_surface_area surface_area_probe
     <> segments_surface_area surface_area_probe.
Proof.
  assert (HL : distance (Mathutils.mkVector 0 0 0) (Mathutils.mkVector 4 0 0)
               = 4).
  { unfold distance. apply sqrt_eq; simpl; lra. }
  assert (Hcode : Sections.compute_section_surface_area surface_area_probe
                  = 6 * PI).
  { rewrite surface_area_coded.
    unfold surface_area_probe, coded_segment_area, caps_area, segment_length.
    cbn [map segments samples fst snd radius point Rsum fold_right].
    rewrite HL. rewrite (sqrt_eq 2) by lra. lra. }
  assert (Hspec : segments_surface_area surface_area_probe = 10 * PI).
  { unfold segments_surface_area, surface_area_probe, lateral_area, caps_area,
      segment_length.
    cbn [map segments samples fst snd radius point Rsum fold_right].
    rewrite HL. rewrite (sqrt_eq 4) by lra. lra. }
  repeat split; trivial.
  rewrite Hcode, Hspec. pose proof PI_RGT_0. lra.
Qed.

(** C6: [compute_section_volume] returns the sum over the segments of
    (pi/3)*L*(r0^2 + r0*r1 + r1^2), where L is the Euclidean length of the
    segment; it returns 0 for a section with fewer than 2 samples; for a
    single segment of length 2 with r0 = r1 = 1 it returns 2*pi. *)
Theorem compute_section_volume_spec (section : Section) :
  Sections.compute_section_volume section = segments_volume section
  /\ ((List.length (samples section) < 2)%nat ->
      Sections.compute_section_volume section = 0)
  /\ (forall p0 p1,
         samples section = [ mkSample p0 1; mkSample p1 1 ] ->
         distance p0 p1 = 2 ->
         Sections.compute_section_volume section = 2 * PI).
Proof.
  assert (Hsum : Sections.compute_section_volume section
                 = segments_volume section).
  { unfold Sections.compute_section_volume, segments_volume.
    destruct (List.length (samples section) <? 2)%nat eqn:Hlen.
    - apply Nat.ltb_lt in Hlen. now rewrite segments_few.
    - rewrite (fold_range_segments
                 (fun acc s0 s1 =>
                    acc + (1 / 3) * PI
                          * Mathutils.length (Mathutils.sub (point s0) (point s1))
                          * (radius s0 * radius s0 + radius s0 * radius s1
                             + radius s1 * radius s1))).
      rewrite (fold_left_add_Rsum
                 (fun s =>
                    (1 / 3) * PI
                    * Mathutils.length
                        (Mathutils.sub (point (fst s)) (point (snd s)))
                    * (radius (fst s) * radius (fst s)
                       + radius (fst s) * radius (snd s)
                       + radius (snd s) * radius (snd s)))).
      rewrite Rplus_0_l. f_equal.
      apply map_ext; intros s.
      unfold frustum_volume, segment_length.
      rewrite length_sub_distance. field. }
  split; [exact Hsum |].
  split.
  - intros H. rewrite Hsum. unfold segments_volume.
    now rewrite segments_few.
  - intros p0 p1 Hs HL. rewrite Hsum.
    unfold segments_volume, frustum_volume, segment_length. rewrite Hs.
    cbn [map segments fst snd radius point Rsum fold_right].
    rewrite HL. field.
Qed.

Lemma compute_section_volume_spec_witness :
  Sections.compute_section_volume
    {| samples := [ mkSample (Mathutils.mkVector 0 0 0) 1;
                    mkSample (Mathutils.mkVector 0 2 0) 1 ] |} = 2 * PI
  /\ Sections.compute_section_volume
       {| samples := [ mkSample (Mathutils.mkVector 0 0 0) 1 ] |} = 0.
Proof.
  split.
  - apply (proj2 (proj2 (compute_section_volume_spec _))
             (Mathutils.mkVector 0 0 0) (Mathutils.mkVector 0 2 0)).
    + reflexivity.
    + unfold distance. apply sqrt_eq; simpl; lra.
  - apply (proj1 (proj2 (compute_section_volume_spec _))). simpl. lia.
Defined.

(** C4: [is_short_section] returns true exactly when the section has at
    least 2 samples and its length, as [compute_section_length] computes it,
    is strictly less than 2*(r_first + r_last); a section with fewer than
    2 samples yields false; a 2-sample section with radii 1 and 1 and
    length 1 yields true. *)
Theorem is_short_section_spec (section : Section) :
  (Sections.is_short_section section = true <->
   (2 <= List.length (samples section))%nat
   /\ exists first middle last,
       samples section = first :: middle ++ [last]
       /\ Sections.compute_section_length section
          < 2 * (radius first + radius last))
  /\ ((List.length (samples section) < 2)%nat ->
      Sections.is_short_section section = false)
  /\ (forall p0 p1,
         samples section = [ mkSample p0 1; mkSample p1 1 ] ->
         Sections.compute_section_length section = 1 ->
         Sections.is_short_section section = true).
Proof.
  assert (Hends : forall first middle last,
             samples section = first :: middle ++ [last] ->
             Sections.is_short_section section
             = Rltb (Sections.compute_section_length section)
                    ((radius first + radius last) * 2)).
  { intros first middle last Hs. unfold Sections.is_short_section.
    set (len := Sections.compute_section_length section).
    rewrite Hs.
    replace (1 <? List.length (first :: middle ++ [last]))%nat with true.
    - unfold item, item_last. cbn [nth].
      rewrite app_comm_cons, last_last.
      now destruct (Rltb _ _).
    - symmetry. apply Nat.ltb_lt. simpl. rewrite length_app. simpl. lia. }
  assert (Hfew : (List.length (samples section) < 2)%nat ->
                 Sections.is_short_section section = false).
  { intros H. unfold Sections.is_short_section.
    replace (1 <? List.length (samples section))%nat with false; trivial.
    symmetry. apply Nat.ltb_ge. lia. }
  split; [| split; [exact Hfew |]].
  - split.
    + intros Hshort.
      assert (Hlen : (2 <= List.length (samples section))%nat).
      { destruct (le_lt_dec 2 (List.length (samples section))); trivial.
        rewrite Hfew in Hshort by trivial. discriminate. }
      split; trivial.
      destruct (two_samples_ends _ Hlen) as (first & middle & last & Hs).
      exists first, middle, last. split; trivial.
      rewrite (Hends _ _ _ Hs) in Hshort.
      apply Rltb_true_iff in Hshort. lra.
    + intros (_ & first & middle & last & Hs & Hlt).
      rewrite (Hends _ _ _ Hs). apply Rltb_true_iff. lra.
  - intros p0 p1 Hs HL.
    rewrite (Hends (mkSample p0 1) [] (mkSample p1 1) Hs), HL.
    apply Rltb_true_iff. simpl. lra.
Qed.

Lemma is_short_section_spec_witness :
  Sections.is_short_section
    {| samples := [ mkSample (Mathutils.mkVector 0 0 0) 1;
                    mkSample (Mathutils.mkVector 1 0 0) 1 ] |} = true
  /\ Sections.is_short_section {| samples := [] |} = false.
Proof.
  split.
  - apply (proj2 (proj2 (is_short_section_spec _))
             (Mathutils.mkVector 0 0 0) (Mathutils.mkVector 1 0 0)).
    + reflexivity.
    + rewrite section_length_segments. unfold segment_length, distance.
      cbn [map segments samples fst snd point Rsum fold_right
           Mathutils.x Mathutils.y Mathutils.z].
      rewrite (sqrt_eq 1); lra.
  - apply (proj1 (proj2 (is_short_section_spec _))). simpl. lia.
Defined.

(** * Properties of [samples.py] *)

Lemma total_of_number_samples_acc (sections_list : list Section) (acc : nat) :
  fold_left
    (fun total section =>
       (total + Samples.compute_number_of_samples_in_section section)%nat)
    sections_list acc
  = (acc + total_samples sections_list)%nat.
Proof.
  revert acc; induction sections_list as [| section l IH]; intros acc.
  - simpl. unfold total_samples. simpl. lia.
  - cbn [fold_left]. rewrite IH.
    unfold total_samples, Samples.compute_number_of_samples_in_section.
    simpl. lia.
Qed.

Lemma append_radii_acc (l : list Sample) (data : list R) :
  fold_left (fun data i_sample => data ++ [radius i_sample]) l data
  = data ++ map radius l.
Proof.
  revert data; induction l as [| sample l IH]; intros data; simpl.
  - now rewrite app_nil_r.
  - rewrite IH, <- app_assoc. reflexivity.
Qed.

Lemma radius_distribution_acc (sections_list : list Section) (data : list R) :
  fold_left
    (fun data i_section =>
       fold_left (fun data i_sample => data ++ [radius i_sample])
                 (samples i_section) data)
    sections_list data
  = data ++ radii_of sections_list.
Proof.
  revert data; induction sections_list as [| section l IH]; intros data.
  - simpl. now rewrite app_nil_r.
  - cbn [fold_left]. rewrite IH, append_radii_acc, <- app_assoc. reflexivity.
Qed.

(** The radius distribution lists the radii in section order then sample
    order. *)
Lemma radius_distribution_radii_of (morphology_object : Morphology) :
  Samples.compute_sample_radius_distribution morphology_object
  = radii_of (sections_list morphology_object).
Proof.
  unfold Samples.compute_sample_radius_distribution.
  now rewrite radius_distribution_acc.
Qed.

Lemma radii_of_length (sections_list : list Section) :
  List.length (radii_of sections_list) = total_samples sections_list.
Proof.
  unfold radii_of, total_samples.
  induction sections_list as [| section l IH]; simpl; trivial.
  now rewrite length_app, length_map, IH.
Qed.

(** C10: the list returned by [compute_sample_radius_distribution] has as
    many entries as [compute_total_of_number_samples_from_sections_list]
    counts on the same sections list, and both are the sum over the sections
    of the number of samples of the section; the list holds the radius of
    each sample, once, in section order then sample order. *)
Theorem radius_distribution_length (morphology_object : Morphology) :
  List.length (Samples.compute_sample_radius_distribution morphology_object)
  = Samples.compute_total_of_number_samples_from_sections_list
      (sections_list morphology_object)
  /\ Samples.compute_total_of_number_samples_from_sections_list
       (sections_list morphology_object)
     = total_samples (sections_list morphology_object)
  /\ Samples.compute_sample_radius_distribution morphology_object
     = flat_map (fun section => map radius (samples section))
                (sections_list morphology_object).
Proof.
  assert (H : Samples.compute_total_of_number_samples_from_sections_list
                (sections_list morphology_object)
              = total_samples (sections_list morphology_object)).
  { unfold Samples.compute_total_of_number_samples_from_sections_list.
    now rewrite total_of_number_samples_acc. }
  split; [| split; trivial].
  - now rewrite H, radius_distribution_radii_of, radii_of_length.
  - apply radius_distribution_radii_of.
Qed.

(** The loop that accumulates the radii of a section computes their sum. *)
Lemma mean_radius_loop (section : Section) :
  fold_left (fun mean_radius sample => mean_radius + radius sample)
            (samples section) 0
  / INR (List.length (samples section))
  = mean_radius section.
Proof.
  unfold mean_radius. rewrite (fold_left_add_Rsum radius). now rewrite Rplus_0_l.
Qed.

Lemma corrected_samples_map (mean epsilon : R) (l : list Sample) :
  Forall2 (corrected_sample mean epsilon) l
          (map (fun sample =>
                  if Rltb (radius sample) epsilon
                  then set_radius sample mean else sample) l).
Proof.
  induction l as [| sample l IH]; simpl; constructor; trivial.
  unfold corrected_sample.
  destruct (Rltb (radius sample) epsilon) eqn:Hlt.
  - apply Rltb_true_iff in Hlt. simpl. repeat split; trivial. lra.
  - apply Rltb_false_iff in Hlt. repeat split; trivial. lra.
Qed.

(** One turn of the loop over the sections. *)
Lemma correct_section_spec (section : Section) (epsilon : R) :
  corrected_section epsilon section (Samples.correct_section section epsilon).
Proof.
  unfold corrected_section, Samples.correct_section.
  rewrite mean_radius_loop. apply corrected_samples_map.
Qed.


(** *** The run on a store *)

Lemma corrected_twice (mean epsilon : R) (sample : Sample) :
  corrected mean epsilon (corrected mean epsilon sample)
  = corrected mean epsilon sample.
Proof.
  unfold corrected.
  destruct (Rltb (radius sample) epsilon) eqn:Hlt; [| now rewrite Hlt].
  simpl. now destruct (Rltb mean epsilon).
Qed.

(** The assignment loop changes the objects of the section, each once and
    for all, and no other object. *)
Lemma assign_loop (mean epsilon : R) (section : list InPlace.ref)
      (store : InPlace.Store) (o : InPlace.ref) :
  fold_left
    (fun store sample =>
       if Rltb (radius (store sample)) epsilon
       then InPlace.assign_radius sample mean store
       else store)
    section store o
  = if in_dec Nat.eq_dec o section then corrected mean epsilon (store o)
    else store o.
Proof.
  revert store; induction section as [| sample l IH]; intros store.
  - reflexivity.
  - cbn [fold_left]. rewrite IH.
    match goal with
    | |- context [corrected mean epsilon (?s o)] => set (store1 := s)
    end.
    assert (Hstep : store1 o
                    = if Nat.eq_dec sample o
                      then corrected mean epsilon (store o)
                      else store o).
    { unfold store1, corrected.
      destruct (Nat.eq_dec sample o) as [-> | Hne].
      - destruct (Rltb (radius (store o)) epsilon); trivial.
        unfold InPlace.assign_radius. now rewrite Nat.eqb_refl.
      - destruct (Rltb (radius (store sample)) epsilon); trivial.
        unfold InPlace.assign_radius.
        destruct (Nat.eqb_spec o sample); [congruence | reflexivity]. }
    rewrite Hstep.
    destruct (in_dec Nat.eq_dec o l) as [Hin | Hnotin];
      destruct (in_dec Nat.eq_dec o (sample :: l)) as [Hin' | Hnotin'];
      destruct (Nat.eq_dec sample o) as [Heq | Hne];
      trivial; try apply corrected_twice;
      solve [ exfalso; apply Hnotin'; simpl; auto
            | destruct Hin' as [Heq | Hin]; [congruence | contradiction] ].
Qed.

Lemma in_place_section (section : list InPlace.ref) (epsilon : R)
      (store : InPlace.Store) :
  {| samples := map (InPlace.correct_section section epsilon store) section |}
  = Samples.correct_section {| samples := map store section |} epsilon
  /\ forall o, ~ In o section ->
               InPlace.correct_section section epsilon store o = store o.
Proof.
  unfold InPlace.correct_section, Samples.correct_section.
  cbn [samples]. split.
  - f_equal. rewrite map_map, length_map.
    replace (fold_left (fun mean_radius sample => mean_radius + radius sample)
                       (map store section) 0)
      with (fold_left (fun mean_radius sample =>
                         mean_radius + radius (store sample)) section 0).
    + apply map_ext_in. intros o Ho. rewrite assign_loop.
      destruct (in_dec Nat.eq_dec o section); [reflexivity | contradiction].
    + generalize 0. induction section as [| o l IH]; intros acc; simpl; trivial.
  - intros o Ho. rewrite assign_loop.
    destruct (in_dec Nat.eq_dec o section); [contradiction | reflexivity].
Qed.

(** The run leaves alone every object outside the sections. *)
Lemma in_place_frame (sections_list : list (list InPlace.ref)) (epsilon : R)
      (store : InPlace.Store) (o : InPlace.ref) :
  (forall section, In section sections_list -> ~ In o section) ->
  InPlace.correct_samples_with_zero_radii sections_list epsilon store o
  = store o.
Proof.
  revert store; induction sections_list as [| section l IH]; intros store Ho.
  - reflexivity.
  - simpl. destruct (List.length section =? 0)%nat; trivial.
    rewrite IH by (intros; apply Ho; now right).
    apply in_place_section. apply Ho. now left.
Qed.

(** When no sample object belongs to two sections, the store after the run
    shows the sections list that [Samples.correct_samples_with_zero_radii]
    returns. *)
Lemma in_place_agrees (sections_list : list (list InPlace.ref)) (epsilon : R)
      (store : InPlace.Store) :
  InPlace.separate sections_list ->
  InPlace.read
    (InPlace.correct_samples_with_zero_radii sections_list epsilon store)
    sections_list
  = Samples.correct_samples_with_zero_radii
      (InPlace.read store sections_list) epsilon.
Proof.
  intros Hsep. revert store.
  induction Hsep as [| section l Hsection _ IH]; intros store.
  - reflexivity.
  - cbn [InPlace.read map InPlace.correct_samples_with_zero_radii
         Samples.correct_samples_with_zero_radii samples].
    rewrite length_map.
    destruct (List.length section =? 0)%nat; [reflexivity |].
    destruct (in_place_section section epsilon store) as [Hhere Hothers].
    f_equal.
    + rewrite <- Hhere. f_equal. apply map_ext_in. intros o Ho.
      apply in_place_frame. intros later Hlater.
      rewrite Forall_forall in Hsection. now apply (Hsection later).
    + fold (InPlace.read
              (InPlace.correct_samples_with_zero_radii
                 l epsilon (InPlace.correct_section section epsilon store)) l).
      fold (InPlace.read store l).
      rewrite IH. f_equal.
      unfold InPlace.read. apply map_ext_in. intros later Hlater.
      f_equal. apply map_ext_in. intros o Ho. apply Hothers.
      intros Hin. rewrite Forall_forall in Hsection.
      exact (Hsection later Hlater o Hin Ho).
Qed.













(** [min] returns an item of the list that no item is below. *)
Lemma min_loop_spec (rest : list R) (first : R) :
  let m := fold_left (fun best item => if Rltb item best then item else best)
                     rest first in
  In m (first :: rest) /\ forall r, In r (first :: rest) -> m <= r.
Proof.
  revert first; induction rest as [| item rest IH]; intros first; cbn zeta.
  - simpl. split; [now left |]. intros r [<- | []]. lra.
  - cbn [fold_left].
    destruct (Rltb item first) eqn:Hlt;
      [apply Rltb_true_iff in Hlt | apply Rltb_false_iff in Hlt];
      destruct (IH (if Rltb item first then item else first)) as [Hin Hle];
      rewrite ?(proj2 (Rltb_true_iff _ _) Hlt),
              ?(proj2 (Rltb_false_iff _ _) Hlt) in Hin, Hle.
    + split.
      * destruct Hin as [<- | Hin]; [right; now left | right; now right].
      * intros r [<- | [<- | Hr]].
        -- specialize (Hle item (or_introl eq_refl)). lra.
        -- apply Hle. now left.
        -- apply Hle. now right.
    + split.
      * destruct Hin as [<- | Hin]; [now left | right; now right].
      * intros r [<- | [<- | Hr]].
        -- apply Hle. now left.
        -- specialize (Hle first (or_introl eq_refl)). lra.
        -- apply Hle. now right.
Qed.

(** [max] returns an item of the list that no item is above. *)
Lemma max_loop_spec (rest : list R) (first : R) :
  let m := fold_left (fun best item => if Rgtb item best then item else best)
                     rest first in
  In m (first :: rest) /\ forall r, In r (first :: rest) -> r <= m.
Proof.
  unfold Rgtb.
  revert first; induction rest as [| item rest IH]; intros first; cbn zeta.
  - simpl. split; [now left |]. intros r [<- | []]. lra.
  - cbn [fold_left].
    destruct (Rltb first item) eqn:Hlt;
      [apply Rltb_true_iff in Hlt | apply Rltb_false_iff in Hlt];
      destruct (IH (if Rltb first item then item else first)) as [Hin Hle];
      rewrite ?(proj2 (Rltb_true_iff _ _) Hlt),
              ?(proj2 (Rltb_false_iff _ _) Hlt) in Hin, Hle.
    + split.
      * destruct Hin as [<- | Hin]; [right; now left | right; now right].
      * intros r [<- | [<- | Hr]].
        -- specialize (Hle item (or_introl eq_refl)). lra.
        -- apply Hle. now left.
        -- apply Hle. now right.
    + split.
      * destruct Hin as [<- | Hin]; [now left | right; now right].
      * intros r [<- | [<- | Hr]].
        -- apply Hle. now left.
        -- specialize (Hle first (or_introl eq_refl)). lra.
        -- apply Hle. now right.
Qed.

Lemma py_sum_Rsum (l : list R) : py_sum l = Rsum l.
Proof.
  unfold py_sum.
  change (fold_left Rplus l 0) with (fold_left (fun acc r => acc + r) l 0).
  rewrite (fold_left_add_Rsum (fun r : R => r)), map_id. apply Rplus_0_l.
Qed.

Lemma zero_radii_count (epsilon : R) (l : list R) :
  List.length (filter (fun radius => Rltb radius epsilon) l)
  = count_below epsilon l.
Proof.
  induction l as [| r l IH]; simpl; trivial.
  unfold Rltb at 1. destruct (Rlt_dec r epsilon); simpl; now rewrite IH.
Qed.

(** The counting loop of [analyze_samples_with_zero_radii] counts the
    same radii. *)
Lemma zero_radii_loop (radii_list : list R) (epsilon : R) :
  Samples.analyze_samples_with_zero_radii radii_list epsilon
  = count_below epsilon radii_list.
Proof.
  unfold Samples.analyze_samples_with_zero_radii.
  assert (H : forall acc,
             fold_left
               (fun zero_radii_samples radius =>
                  if Rltb radius epsilon then (zero_radii_samples + 1)%nat
                  else zero_radii_samples)
               radii_list acc
             = (acc + count_below epsilon radii_list)%nat).
  { induction radii_list as [| r l IH]; intros acc; simpl; [lia |].
    rewrite IH. unfold Rltb. destruct (Rlt_dec r epsilon); lia. }
  now rewrite H.
Qed.

Lemma radii_of_nil_iff (sections_list : list Section) :
  radii_of sections_list = [] <-> total_samples sections_list = 0%nat.
Proof.
  rewrite <- radii_of_length.
  destruct (radii_of sections_list); simpl; split; intros; try easy.
Qed.

(** [analyze_samples_radii] on a sections list that has a sample. *)
Lemma analyze_samples_radii_ok (sections_list : list Section) (epsilon : R) :
  radii_of sections_list <> [] ->
  exists minimum maximum,
    Samples.analyze_samples_radii sections_list epsilon
    = Ok (minimum, maximum,
          Rsum (radii_of sections_list)
          / INR (List.length (radii_of sections_list)),
          count_below epsilon (radii_of sections_list))
    /\ In minimum (radii_of sections_list)
    /\ (forall r, In r (radii_of sections_list) -> minimum <= r)
    /\ In maximum (radii_of sections_list)
    /\ (forall r, In r (radii_of sections_list) -> r <= maximum).
Proof.
  intros Hne. unfold Samples.analyze_samples_radii.
  change (flat_map (fun section => map (fun sample => radius sample)
                                       (samples section)) sections_list)
    with (radii_of sections_list).
  destruct (radii_of sections_list) as [| first rest] eqn:Hradii;
    [contradiction |].
  destruct (min_loop_spec rest first) as [Hmin_in Hmin_le].
  destruct (max_loop_spec rest first) as [Hmax_in Hmax_le].
  exists (fold_left (fun best item => if Rltb item best then item else best)
                    rest first),
         (fold_left (fun best item => if Rgtb item best then item else best)
                    rest first).
  split; [| repeat split; assumption].
  unfold py_min, py_max, py_div, bind.
  destruct (Req_dec_T (1 * INR (List.length (first :: rest))) 0) as [H0 | _].
  - exfalso. rewrite Rmult_1_l in H0.
    apply (INR_eq _ 0%nat) in H0. discriminate.
  - rewrite py_sum_Rsum, zero_radii_count, Rmult_1_l. reflexivity.
Qed.

(** C7: on a sections list whose samples are not all missing,
    [analyze_samples_radii] returns the minimum radius, the maximum radius,
    the sum of the radii divided by their number, and the number of radii
    strictly below [epsilon], over the radii taken in section order then
    sample order; on the radii 0.0001, 0.5, 1.0 with epsilon = 0.001 it
    returns minimum 0.0001, maximum 1.0, a mean within 0.0001 of 0.5 and
    zero count 1. *)
Theorem analyze_samples_radii_spec (sections_list : list Section) (epsilon : R) :
  radii_of sections_list <> [] ->
  (exists minimum maximum,
      Samples.analyze_samples_radii sections_list epsilon
      = Ok (minimum, maximum,
            Rsum (radii_of sections_list)
            / INR (List.length (radii_of sections_list)),
            count_below epsilon (radii_of sections_list))
      /\ In minimum (radii_of sections_list)
      /\ (forall r, In r (radii_of sections_list) -> minimum <= r)
      /\ In maximum (radii_of sections_list)
      /\ (forall r, In r (radii_of sections_list) -> r <= maximum))
  /\ (radii_of sections_list = [1 / 10000; 1 / 2; 1] ->
      epsilon = 1 / 1000 ->
      exists mean,
        Samples.analyze_samples_radii sections_list epsilon
        = Ok (1 / 10000, 1, mean, 1%nat)
        /\ mean = 15001 / 30000
        /\ Rabs (mean - 1 / 2) < 1 / 10000).
Proof.
  intros Hne.
  destruct (analyze_samples_radii_ok sections_list epsilon Hne)
    as (minimum & maximum & Hres & Hmin_in & Hmin_le & Hmax_in & Hmax_le).
  split.
  - exists minimum, maximum. repeat split; trivial.
  - intros Hradii Heps. rewrite Hradii in *.
    exists (15001 / 30000). split; [| split; trivial].
    + assert (Hminimum : minimum = 1 / 10000).
      { pose proof (Hmin_le _ (or_introl eq_refl)).
        destruct Hmin_in as [<- | [<- | [<- | []]]]; trivial; lra. }
      assert (Hmaximum : maximum = 1).
      { pose proof (Hmax_le _ (or_intror (or_intror (or_introl eq_refl)))).
        destruct Hmax_in as [<- | [<- | [<- | []]]]; trivial; lra. }
      assert (Hcount : count_below epsilon [1 / 10000; 1 / 2; 1] = 1%nat).
      { subst epsilon. simpl.
        destruct (Rlt_dec (1 / 10000) (1 / 1000)); [| lra].
        destruct (Rlt_dec (1 / 2) (1 / 1000)); [lra |].
        destruct (Rlt_dec 1 (1 / 1000)); [lra | reflexivity]. }
      assert (Hmean : Rsum [1 / 10000; 1 / 2; 1]
                      / INR (List.length [1 / 10000; 1 / 2; 1])
                      = 15001 / 30000).
      { simpl. field. }
      rewrite Hres, Hminimum, Hmaximum, Hcount, Hmean. reflexivity.
    + unfold Rabs. destruct (Rcase_abs (15001 / 30000 - 1 / 2)); lra.
Qed.

Lemma analyze_samples_radii_spec_witness :
  exists mean,
    Samples.analyze_samples_radii
      [ {| samples := [ mkSample (Mathutils.mkVector 0 0 0) (1 / 10000);
                        mkSample (Mathutils.mkVector 1 0 0) (1 / 2) ] |};
        {| samples := [ mkSample (Mathutils.mkVector 2 0 0) 1 ] |} ]
      (1 / 1000)
    = Ok (1 / 10000, 1, mean, 1%nat)
    /\ mean = 15001 / 30000
    /\ Rabs (mean - 1 / 2) < 1 / 10000.
Proof.
  apply (analyze_samples_radii_spec
           [ {| samples := [ mkSample (Mathutils.mkVector 0 0 0) (1 / 10000);
                             mkSample (Mathutils.mkVector 1 0 0) (1 / 2) ] |};
             {| samples := [ mkSample (Mathutils.mkVector 2 0 0) 1 ] |} ]
           (1 / 1000)).
  - discriminate.
  - reflexivity.
  - reflexivity.
Defined.

(** C8: on a sections list without any sample [analyze_samples_radii]
    raises instead of returning a tuple: [min] of the empty list raises
    [ValueError] ([max] and the division by the number of radii would raise
    too); it returns a tuple exactly when the list has at least one
    sample. *)
Theorem analyze_samples_radii_empty (sections_list : list Section) (epsilon : R) :
  (total_samples sections_list = 0%nat ->
   Samples.analyze_samples_radii sections_list epsilon = Raise ValueError)
  /\ ((exists value,
          Samples.analyze_samples_radii sections_list epsilon = Ok value)
      <-> (1 <= total_samples sections_list)%nat)
  /\ py_min [] = Raise ValueError
  /\ py_max [] = Raise ValueError
  /\ (forall total, py_div total (1 * INR (List.length (@nil R)))
                    = Raise ZeroDivisionError).
Proof.
  assert (Hempty : total_samples sections_list = 0%nat ->
                   Samples.analyze_samples_radii sections_list epsilon
                   = Raise ValueError).
  { intros H. apply radii_of_nil_iff in H.
    unfold Samples.analyze_samples_radii.
    change (flat_map (fun section => map (fun sample => radius sample)
                                         (samples section)) sections_list)
      with (radii_of sections_list).
    rewrite H. reflexivity. }
  split; [exact Hempty |]. split; [| repeat split].
  - split.
    + intros [value Hvalue].
      destruct (total_samples sections_list) eqn:Htotal; [| lia].
      rewrite Hempty in Hvalue by trivial. discriminate.
    + intros Htotal.
      destruct (analyze_samples_radii_ok sections_list epsilon)
        as (minimum & maximum & Hres & _).
      * rewrite radii_of_nil_iff. lia.
      * eexists. exact Hres.
  - intros total. unfold py_div. simpl.
    destruct (Req_dec_T (1 * 0) 0) as [_ | H]; [reflexivity | lra].
Qed.

Lemma analyze_samples_radii_empty_witness :
  Samples.analyze_samples_radii [ {| samples := [] |}; {| samples := [] |} ] 1
  = Raise ValueError.
Proof.
  apply (proj1 (analyze_samples_radii_empty _ 1)). reflexivity.
Defined.

(** * Properties of [strings.py] *)

Lemma append_assoc (a b c : string) : ((a ++ b) ++ c = a ++ (b ++ c))%string.
Proof. induction a as [| ch a IH]; simpl; [reflexivity | now rewrite IH]. Qed.

Lemma append_empty_r (a : string) : (a ++ EmptyString)%string = a.
Proof. induction a as [| ch a IH]; simpl; [reflexivity | now rewrite IH]. Qed.

Section WriteLoop.

Context {V : Type} (str : V -> string).

(** The loop of writes puts the text of the distribution at the end of
    the open file and touches no other file. *)
Lemma write_loop (distribution : list V) (file_handle : Writers.FileHandle)
      (fs : Writers.FileSystem) (content : string) :
  fs (Writers.name file_handle) = Some content ->
  let fs' :=
    fold_left
      (fun fs element =>
         Writers.write file_handle (str element ++ Writers.newline)%string fs)
      distribution fs in
  fs' (Writers.name file_handle)
  = Some (content ++ distribution_text str distribution)%string
  /\ forall p, p <> Writers.name file_handle -> fs' p = fs p.
Proof.
  revert fs content.
  induction distribution as [| element l IH]; intros fs content Hfs; cbn zeta.
  - simpl. now rewrite append_empty_r.
  - cbn [fold_left distribution_text fold_right].
    destruct (IH (Writers.write file_handle
                                (str element ++ Writers.newline)%string fs)
                 (content ++ (str element ++ Writers.newline))%string)
      as [Hfile Hothers].
    + unfold Writers.write. now rewrite String.eqb_refl, Hfs.
    + split.
      * rewrite Hfile. f_equal. now rewrite !append_assoc.
      * intros p Hp. rewrite Hothers by trivial.
        unfold Writers.write.
        now rewrite (proj2 (String.eqb_neq _ _) Hp).
Qed.

End WriteLoop.

(** A line that holds no terminator is read back whole. *)
Lemma lines_first (line text : string) :
  single_line line = true ->
  lines (line ++ Writers.newline ++ text) = line :: lines text.
Proof.
  induction line as [| c line IH]; intros Hline.
  - reflexivity.
  - simpl in Hline. apply andb_true_iff in Hline as [Hc Hline].
    apply negb_true_iff in Hc.
    cbn [append lines]. rewrite Hc, (IH Hline). reflexivity.
Qed.

(** Reading the text of a distribution back and parsing its lines. *)
Lemma parse_lines_distribution_text {V : Type} (str : V -> string)
      (parse : string -> option V) (distribution : list V) :
  Forall (fun value => single_line (str value) = true
                       /\ parse (str value) = Some value) distribution ->
  map parse (lines (distribution_text str distribution))
  = map Some distribution.
Proof.
  induction 1 as [| value l [Hline Hparse] _ IH]; [reflexivity |].
  cbn [distribution_text fold_right map].
  rewrite lines_first by trivial.
  cbn [map]. rewrite Hparse. f_equal. exact IH.
Qed.

(** The integers are values of that kind: their string form is a single
    line that parses back to them. *)
Lemma digits_single_line (d : Decimal.uint) :
  single_line (NilEmpty.string_of_uint d) = true.
Proof. induction d; simpl; trivial. Qed.

Lemma str_int_single_line (n : Z) : single_line (str_int n) = true.
Proof.
  unfold str_int, NilZero.string_of_int, NilZero.string_of_uint.
  destruct (Z.to_int n) as [d | d]; destruct d; simpl;
    trivial; apply digits_single_line.
Qed.

Lemma str_int_parses (n : Z) : parse_int (str_int n) = Some n.
Proof.
  unfold parse_int, str_int.
  rewrite NilZero.isi.
  - simpl. now rewrite DecimalZ.of_to.
  - destruct n; simpl; try discriminate.
    intros [= H]. now apply (DecimalPos.Unsigned.to_uint_nonnil p).
  - destruct n; simpl; try discriminate.
    intros [= H]. now apply (DecimalPos.Unsigned.to_uint_nonnil p).
Qed.

Lemma integers_read_back (distribution : list Z) :
  map parse_int (lines (distribution_text str_int distribution))
  = map Some distribution.
Proof.
  apply parse_lines_distribution_text.
  apply Forall_forall. intros n _.
  split; [apply str_int_single_line | apply str_int_parses].
Qed.

(** C9: [write_distribution_to_file] leaves in the file exactly the string
    form of each value followed by a line terminator, in input order (and
    leaves the other files alone); when the string form of a value holds no
    line terminator and parses back to the value, reading the file line by
    line and parsing each line gives the distribution back, in order. *)
Theorem write_distribution_to_file_roundtrip
        {V : Type} (str : V -> string) (parse : string -> option V)
        (distribution : list V) (file_path : string) (fs : Writers.FileSystem) :
  let fs' := Writers.write_distribution_to_file str distribution file_path fs in
  fs' file_path = Some (distribution_text str distribution)
  /\ (forall p, p <> file_path -> fs' p = fs p)
  /\ (Forall (fun value => single_line (str value) = true
                           /\ parse (str value) = Some value) distribution ->
      exists content,
        fs' file_path = Some content
        /\ map parse (lines content) = map Some distribution).
Proof.
  cbn zeta. unfold Writers.write_distribution_to_file, Writers.open_w,
    Writers.close.
  destruct (write_loop str distribution (Writers.mkFileHandle file_path)
              (fun p => if String.eqb p file_path then Some EmptyString
                        else fs p)
              EmptyString) as [Hfile Hothers].
  { simpl. now rewrite String.eqb_refl. }
  cbn [Writers.name] in Hfile, Hothers. cbn [append] in Hfile.
  split; [exact Hfile |]. split.
  - intros p Hp. rewrite Hothers by trivial.
    now rewrite (proj2 (String.eqb_neq _ _) Hp).
  - intros Hvalues. eexists. split; [exact Hfile |].
    now apply parse_lines_distribution_text.
Qed.

Lemma write_distribution_to_file_roundtrip_witness :
  exists content,
    Writers.write_distribution_to_file str_int [3; -12; 0]%Z
      "lengths.txt" (fun _ => None) "lengths.txt"%string
    = Some content
    /\ map parse_int (lines content) = map Some [3; -12; 0]%Z.
Proof.
  apply (proj2 (proj2 (write_distribution_to_file_roundtrip
                         str_int parse_int [3; -12; 0]%Z
                         "lengths.txt" (fun _ => None)))).
  repeat constructor.
Defined.

(** * Further properties of [samples.py] *)

(** A loop that appends one value per item builds the list of the values. *)
Lemma append_map_acc {A B : Type} (f : A -> B) (l : list A) (data : list B) :
  fold_left (fun data a => data ++ [f a]) l data = data ++ map f l.
Proof.
  revert data; induction l as [| a l IH]; intros data; simpl.
  - now rewrite app_nil_r.
  - rewrite IH, <- app_assoc. reflexivity.
Qed.

(** X1: [compute_number_of_samples_per_section_distribution] returns the
    number of samples of each section, in section order; the entries add up
    to what [compute_total_of_number_samples_from_sections_list] returns, and
    there are as many entries as [compute_total_number_sections] counts. *)
Theorem samples_per_section_distribution_spec (morphology_object : Morphology) :
  Samples.compute_number_of_samples_per_section_distribution morphology_object
  = map (fun section => List.length (samples section))
        (sections_list morphology_object)
  /\ list_sum (Samples.compute_number_of_samples_per_section_distribution
                 morphology_object)
     = Samples.compute_total_of_number_samples_from_sections_list
         (sections_list morphology_object)
  /\ List.length (Samples.compute_number_of_samples_per_section_distribution
                    morphology_object)
     = Sections.compute_total_number_sections (sections_list morphology_object).
Proof.
  assert (H : Samples.compute_number_of_samples_per_section_distribution
                morphology_object
              = map (fun section => List.length (samples section))
                    (sections_list morphology_object)).
  { unfold Samples.compute_number_of_samples_per_section_distribution.
    now rewrite (append_map_acc (fun section => List.length (samples section))). }
  rewrite H. repeat split.
  - unfold Samples.compute_total_of_number_samples_from_sections_list.
    now rewrite total_of_number_samples_acc.
  - now rewrite length_map.
Qed.

Lemma rows_acc (sections_list : list Section) (data : list (list R)) :
  fold_left
    (fun data i_section =>
       fold_left
         (fun data i_sample =>
            data ++ [[radius i_sample; Mathutils.x (point i_sample);
                      Mathutils.y (point i_sample);
                      Mathutils.z (point i_sample)]])
         (samples i_section) data)
    sections_list data
  = data ++ flat_map (fun section => map sample_row (samples section))
                     sections_list.
Proof.
  revert data; induction sections_list as [| section l IH]; intros data.
  - simpl. now rewrite app_nil_r.
  - cbn [fold_left flat_map]. rewrite IH.
    rewrite (append_map_acc sample_row), <- app_assoc. reflexivity.
Qed.

(** X2: the table of [compute_sample_radius_distribution_along_axes] has the
    columns Radius, X, Y, Z and one row per sample, in section order then
    sample order, holding the radius and the three coordinates of the
    sample; its first column is the list that
    [compute_sample_radius_distribution] returns. *)
Theorem radius_distribution_along_axes_spec (morphology_object : Morphology) :
  let table :=
    Samples.compute_sample_radius_distribution_along_axes morphology_object in
  Pandas.columns table = ["Radius"; "X"; "Y"; "Z"]%string
  /\ Pandas.rows table
     = flat_map (fun section => map sample_row (samples section))
                (sections_list morphology_object)
  /\ List.length (Pandas.rows table)
     = Samples.compute_total_of_number_samples_from_sections_list
         (sections_list morphology_object)
  /\ map (fun row => nth 0 row 0) (Pandas.rows table)
     = Samples.compute_sample_radius_distribution morphology_object
  /\ Forall (fun row => List.length row = List.length (Pandas.columns table))
            (Pandas.rows table).
Proof.
  cbn zeta. unfold Samples.compute_sample_radius_distribution_along_axes.
  cbn [Pandas.columns Pandas.rows]. rewrite rows_acc. cbn [app].
  split; [reflexivity |]. split; [reflexivity |].
  set (sections := sections_list morphology_object).
  repeat split.
  - unfold Samples.compute_total_of_number_samples_from_sections_list.
    rewrite total_of_number_samples_acc. unfold total_samples.
    induction sections as [| section l IH]; simpl; trivial.
    rewrite length_app, length_map, IH. reflexivity.
  - rewrite radius_distribution_radii_of. fold sections. unfold radii_of.
    induction sections as [| section l IH]; simpl; trivial.
    rewrite map_app, map_map, IH. reflexivity.
  - apply Forall_forall. intros row Hrow.
    apply in_flat_map in Hrow as (section & _ & Hrow).
    apply in_map_iff in Hrow as (sample & <- & _). reflexivity.
Qed.

Lemma count_below_le_length (epsilon : R) (radii : list R) :
  (count_below epsilon radii <= List.length radii)%nat.
Proof.
  induction radii as [| r l IH]; simpl; trivial.
  destruct (Rlt_dec r epsilon); lia.
Qed.

Lemma count_below_zero_iff (epsilon : R) (radii : list R) :
  count_below epsilon radii = 0%nat <-> forall r, In r radii -> epsilon <= r.
Proof.
  induction radii as [| r l IH]; simpl.
  - split; [intros _ r0 [] | trivial].
  - destruct (Rlt_dec r epsilon) as [Hlt | Hge].
    + split; [discriminate |]. intros H.
      specialize (H r (or_introl eq_refl)). lra.
    + rewrite IH. split.
      * intros H r0 [<- | Hr0]; [lra | now apply H].
      * intros H r0 Hr0. apply H. now right.
Qed.

Lemma count_below_all_iff (epsilon : R) (radii : list R) :
  count_below epsilon radii = List.length radii
  <-> forall r, In r radii -> r < epsilon.
Proof.
  induction radii as [| r l IH]; simpl.
  - split; [intros _ r0 [] | trivial].
  - pose proof (count_below_le_length epsilon l) as Hle.
    destruct (Rlt_dec r epsilon) as [Hlt | Hge].
    + split.
      * intros H r0 [<- | Hr0]; trivial. apply IH; [lia | trivial].
      * intros H. f_equal. apply IH. intros r0 Hr0. apply H. now right.
    + split; [lia |]. intros H.
      specialize (H r (or_introl eq_refl)). lra.
Qed.

Lemma count_below_monotone (epsilon epsilon' : R) (radii : list R) :
  epsilon <= epsilon' ->
  (count_below epsilon radii <= count_below epsilon' radii)%nat.
Proof.
  intros Hle. induction radii as [| r l IH]; simpl; trivial.
  destruct (Rlt_dec r epsilon); destruct (Rlt_dec r epsilon'); try lia; lra.
Qed.

(** X3: [analyze_samples_with_zero_radii] never counts more radii than the
    list holds; it returns 0 exactly when no radius is below [epsilon], and
    the length of the list exactly when every radius is; raising [epsilon]
    never lowers the count. *)
Theorem analyze_samples_with_zero_radii_bounds
        (radii_list : list R) (epsilon : R) :
  (Samples.analyze_samples_with_zero_radii radii_list epsilon
   <= List.length radii_list)%nat
  /\ (Samples.analyze_samples_with_zero_radii radii_list epsilon = 0%nat
      <-> forall r, In r radii_list -> epsilon <= r)
  /\ (Samples.analyze_samples_with_zero_radii radii_list epsilon
      = List.length radii_list
      <-> forall r, In r radii_list -> r < epsilon)
  /\ (forall epsilon', epsilon <= epsilon' ->
        (Samples.analyze_samples_with_zero_radii radii_list epsilon
         <= Samples.analyze_samples_with_zero_radii radii_list epsilon')%nat).
Proof.
  rewrite zero_radii_loop. repeat split.
  - apply count_below_le_length.
  - apply count_below_zero_iff.
  - apply count_below_zero_iff.
  - apply count_below_all_iff.
  - apply count_below_all_iff.
  - intros epsilon' Hle. rewrite zero_radii_loop.
    now apply count_below_monotone.
Qed.

Lemma analyze_samples_with_zero_radii_bounds_witness :
  (Samples.analyze_samples_with_zero_radii [0; 1 / 2; 1]%R (1 / 1000)%R
   <= Samples.analyze_samples_with_zero_radii [0; 1 / 2; 1]%R (3 / 4)%R)%nat.
Proof.
  apply (proj2 (proj2 (proj2 (analyze_samples_with_zero_radii_bounds
                                [0; 1 / 2; 1] (1 / 1000))))).
  lra.
Defined.

(** X4: when [analyze_samples_radii] returns a tuple, its zero count is
    what [analyze_samples_with_zero_radii] returns on the list of
    [compute_sample_radius_distribution]. *)
Theorem analyze_samples_radii_zero_count
        (sections : list Section) (epsilon : R)
        (minimum maximum average : R) (zero_count : nat) :
  Samples.analyze_samples_radii sections epsilon
  = Ok (minimum, maximum, average, zero_count) ->
  zero_count
  = Samples.analyze_samples_with_zero_radii
      (Samples.compute_sample_radius_distribution
         {| sections_list := sections |})
      epsilon.
Proof.
  intros Hres.
  rewrite zero_radii_loop, radius_distribution_radii_of. cbn [sections_list].
  destruct (radii_of sections) as [| first rest] eqn:Hradii.
  - exfalso. unfold Samples.analyze_samples_radii in Hres.
    change (flat_map (fun section => map (fun sample => radius sample)
                                         (samples section)) sections)
      with (radii_of sections) in Hres.
    rewrite Hradii in Hres. discriminate.
  - destruct (analyze_samples_radii_ok sections epsilon)
      as (mn & mx & Hok & _); [rewrite Hradii; discriminate |].
    rewrite Hok in Hres. injection Hres as _ _ _ <-.
    now rewrite Hradii.
Qed.

Lemma analyze_samples_radii_zero_count_witness :
  exists minimum maximum average zero_count,
    Samples.analyze_samples_radii
      [ {| samples := [ mkSample (Mathutils.mkVector 0 0 0) 0;
                        mkSample (Mathutils.mkVector 1 0 0) 1 ] |} ]
      (1 / 1000)
    = Ok (minimum, maximum, average, zero_count)
    /\ zero_count
       = Samples.analyze_samples_with_zero_radii
           (Samples.compute_sample_radius_distribution
              {| sections_list :=
                   [ {| samples := [ mkSample (Mathutils.mkVector 0 0 0) 0;
                                     mkSample (Mathutils.mkVector 1 0 0) 1 ] |} ]
              |})
           (1 / 1000).
Proof.
  destruct (analyze_samples_radii_ok
              [ {| samples := [ mkSample (Mathutils.mkVector 0 0 0) 0;
                                mkSample (Mathutils.mkVector 1 0 0) 1 ] |} ]
              (1 / 1000))
    as (minimum & maximum & Hok & _); [discriminate |].
  eexists; eexists; eexists; eexists. split; [exact Hok |].
  exact (analyze_samples_radii_zero_count _ _ _ _ _ _ Hok).
Defined.

(** X5: in the tuple of [analyze_samples_radii] the minimum is at most the
    maximum; the zero count is at most the number of samples, it is 0
    exactly when the minimum is not below [epsilon], and it is the number of
    samples exactly when the maximum is below [epsilon]. *)
Theorem analyze_samples_radii_bounds
        (sections : list Section) (epsilon : R)
        (minimum maximum average : R) (zero_count : nat) :
  Samples.analyze_samples_radii sections epsilon
  = Ok (minimum, maximum, average, zero_count) ->
  minimum <= maximum
  /\ (zero_count
      <= Samples.compute_total_of_number_samples_from_sections_list sections)%nat
  /\ (zero_count = 0%nat <-> epsilon <= minimum)
  /\ (zero_count
      = Samples.compute_total_of_number_samples_from_sections_list sections
      <-> maximum < epsilon).
Proof.
  intros Hres.
  assert (Hne : radii_of sections <> []).
  { intros Hnil. unfold Samples.analyze_samples_radii in Hres.
    change (flat_map (fun section => map (fun sample => radius sample)
                                         (samples section)) sections)
      with (radii_of sections) in Hres.
    rewrite Hnil in Hres. discriminate. }
  destruct (analyze_samples_radii_ok sections epsilon Hne)
    as (mn & mx & Hok & Hmin_in & Hmin_le & Hmax_in & Hmax_le).
  rewrite Hok in Hres. injection Hres as -> -> _ <-.
  unfold Samples.compute_total_of_number_samples_from_sections_list.
  rewrite total_of_number_samples_acc, <- radii_of_length. cbn [Nat.add].
  split; [| split; [| split]].
  - now apply Hmin_le.
  - apply count_below_le_length.
  - rewrite count_below_zero_iff. split.
    + intros H. now apply H.
    + intros H r Hr. specialize (Hmin_le r Hr). lra.
  - rewrite count_below_all_iff. split.
    + intros H. now apply H.
    + intros H r Hr. specialize (Hmax_le r Hr). lra.
Qed.

Lemma analyze_samples_radii_bounds_witness :
  exists minimum maximum average zero_count,
    Samples.analyze_samples_radii
      [ {| samples := [ mkSample (Mathutils.mkVector 0 0 0) 0;
                        mkSample (Mathutils.mkVector 1 0 0) 1 ] |} ]
      (1 / 1000)
    = Ok (minimum, maximum, average, zero_count)
    /\ minimum <= maximum.
Proof.
  destruct (analyze_samples_radii_ok
              [ {| samples := [ mkSample (Mathutils.mkVector 0 0 0) 0;
                                mkSample (Mathutils.mkVector 1 0 0) 1 ] |} ]
              (1 / 1000))
    as (minimum & maximum & Hok & _); [discriminate |].
  eexists; eexists; eexists; eexists. split; [exact Hok |].
  exact (proj1 (analyze_samples_radii_bounds _ _ _ _ _ _ Hok)).
Defined.

(** ** The radius correction *)

Lemma correct_section_points (section : Section) (epsilon : R) :
  map point (samples (Samples.correct_section section epsilon))
  = map point (samples section).
Proof.
  unfold Samples.correct_section. cbn [samples]. rewrite map_map.
  apply map_ext. intros sample. now destruct (Rltb (radius sample) epsilon).
Qed.

Lemma correction_points (sections_list : list Section) (epsilon : R) :
  Forall2 (fun before after =>
             map point (samples after) = map point (samples before))
          sections_list
          (Samples.correct_samples_with_zero_radii sections_list epsilon).
Proof.
  induction sections_list as [| section l IH]; simpl; [constructor |].
  destruct (List.length (samples section) =? 0)%nat.
  - clear IH. constructor; trivial.
    induction l; constructor; trivial.
  - constructor; [apply correct_section_points | exact IH].
Qed.

(** X6: [correct_samples_with_zero_radii] changes radii only: the list keeps
    its sections, each section keeps its samples, in order, and each sample
    keeps its point; the total number of samples is unchanged. *)
Theorem correction_keeps_points (sections_list : list Section) (epsilon : R) :
  Forall2 (fun before after =>
             map point (samples after) = map point (samples before))
          sections_list
          (Samples.correct_samples_with_zero_radii sections_list epsilon)
  /\ Samples.compute_total_of_number_samples_from_sections_list
       (Samples.correct_samples_with_zero_radii sections_list epsilon)
     = Samples.compute_total_of_number_samples_from_sections_list
         sections_list.
Proof.
  pose proof (correction_points sections_list epsilon) as H.
  split; trivial.
  unfold Samples.compute_total_of_number_samples_from_sections_list.
  rewrite !total_of_number_samples_acc. f_equal. unfold total_samples.
  induction H as [| before after l l' Hpoints _ IH]; simpl; trivial.
  rewrite IH. f_equal.
  rewrite <- (length_map point (samples after)), Hpoints.
  apply length_map.
Qed.

(** A section without a radius below the threshold is left as it is. *)
Lemma correct_section_fixed (section : Section) (epsilon : R) :
  (forall sample, In sample (samples section) -> epsilon <= radius sample) ->
  Samples.correct_section section epsilon = section.
Proof.
  intros H. destruct section as [l]. unfold Samples.correct_section.
  cbn [samples] in *. f_equal.
  transitivity (map (fun sample : Sample => sample) l); [| apply map_id].
  apply map_ext_in. intros sample Hsample.
  now rewrite (proj2 (Rltb_false_iff _ _) (H sample Hsample)).
Qed.

(** X7: on a sections list without any radius below [epsilon],
    [correct_samples_with_zero_radii] changes nothing. *)
Theorem correction_without_zero_radii
        (sections_list : list Section) (epsilon : R) :
  (forall section sample,
      In section sections_list -> In sample (samples section) ->
      epsilon <= radius sample) ->
  Samples.correct_samples_with_zero_radii sections_list epsilon
  = sections_list.
Proof.
  induction sections_list as [| section l IH]; intros H; simpl; trivial.
  destruct (List.length (samples section) =? 0)%nat; trivial.
  rewrite correct_section_fixed, IH; trivial.
  - intros s sample Hs. apply H. now right.
  - intros sample. apply H. now left.
Qed.

Lemma correction_without_zero_radii_witness :
  Samples.correct_samples_with_zero_radii
    [ {| samples := [ mkSample (Mathutils.mkVector 0 0 0) 1;
                      mkSample (Mathutils.mkVector 1 0 0) 2 ] |} ] (1 / 1000)
  = [ {| samples := [ mkSample (Mathutils.mkVector 0 0 0) 1;
                      mkSample (Mathutils.mkVector 1 0 0) 2 ] |} ].
Proof.
  apply correction_without_zero_radii.
  intros section sample [<- | []] [<- | [<- | []]]; simpl; lra.
Defined.

(** The samples of a corrected section whose mean is not below the
    threshold are all at the threshold or above. *)
Lemma correct_section_clears (section : Section) (epsilon : R) :
  epsilon <= mean_radius section ->
  forall sample, In sample (samples (Samples.correct_section section epsilon)) ->
                 epsilon <= radius sample.
Proof.
  intros Hmean sample Hin.
  pose proof (correct_section_spec section epsilon) as Hall.
  unfold corrected_section in Hall.
  remember (samples section) as before eqn:Hb.
  remember (samples (Samples.correct_section section epsilon)) as after eqn:Ha.
  clear Hb Ha.
  induction Hall as [| b a l l' (_ & Hlow & Hhigh) _ IH]; [contradiction |].
  destruct Hin as [<- | Hin]; [| now apply IH].
  destruct (Rlt_dec (radius b) epsilon) as [Hlt | Hge].
  - rewrite (Hlow Hlt). exact Hmean.
  - rewrite Hhigh; lra.
Qed.

Lemma correction_clears_all (sections_list : list Section) (epsilon : R) :
  Forall (fun section => samples section <> []
                         /\ epsilon <= mean_radius section) sections_list ->
  forall r,
    In r (radii_of (Samples.correct_samples_with_zero_radii
                      sections_list epsilon)) ->
    epsilon <= r.
Proof.
  induction 1 as [| section l [Hne Hmean] _ IH]; intros r Hr; simpl in Hr.
  - contradiction.
  - destruct (samples section) as [| s0 rest] eqn:Hs; [contradiction |].
    cbn [List.length Nat.eqb] in Hr. unfold radii_of in Hr.
    cbn [flat_map] in Hr. apply in_app_or in Hr as [Hr | Hr].
    + apply in_map_iff in Hr as (sample & <- & Hsample).
      now apply (correct_section_clears section epsilon Hmean).
    + now apply IH.
Qed.

(** On sections lists: when every section that has samples has a mean
    radius that is not below [epsilon], the returned list is returned as
    it is when it is given again. *)
Lemma corrected_list_fixed (sections_list : list Section) (epsilon : R) :
  Forall (fun section => samples section <> [] ->
                         epsilon <= mean_radius section) sections_list ->
  Samples.correct_samples_with_zero_radii
    (Samples.correct_samples_with_zero_radii sections_list epsilon) epsilon
  = Samples.correct_samples_with_zero_radii sections_list epsilon.
Proof.
  induction 1 as [| section l Hmean _ IH]; trivial.
  cbn [Samples.correct_samples_with_zero_radii].
  destruct (List.length (samples section) =? 0)%nat eqn:Hlen.
  - cbn [Samples.correct_samples_with_zero_radii]. now rewrite Hlen.
  - cbn [Samples.correct_samples_with_zero_radii].
    assert (Hsame : List.length
                      (samples (Samples.correct_section section epsilon))
                    = List.length (samples section)).
    { unfold Samples.correct_section. cbn [samples]. apply length_map. }
    rewrite Hsame, Hlen, IH. f_equal.
    apply correct_section_fixed. apply correct_section_clears.
    apply Hmean. apply Nat.eqb_neq in Hlen.
    destruct (samples section); [contradiction | discriminate].
Qed.

(** X10: run statement by statement on a store of sample objects,
    [correct_samples_with_zero_radii] leaves every object outside the
    sections as it is; and when no sample object belongs to two sections,
    the sections list read in the store after the run is the list the
    function on sections lists returns. *)
Theorem in_place_run (sections_list : list (list InPlace.ref)) (epsilon : R)
        (store : InPlace.Store) :
  (forall o, (forall section, In section sections_list -> ~ In o section) ->
             InPlace.correct_samples_with_zero_radii
               sections_list epsilon store o
             = store o)
  /\ (InPlace.separate sections_list ->
      InPlace.read
        (InPlace.correct_samples_with_zero_radii sections_list epsilon store)
        sections_list
      = Samples.correct_samples_with_zero_radii
          (InPlace.read store sections_list) epsilon).
Proof.
  split.
  - intros o Ho. now apply in_place_frame.
  - apply in_place_agrees.
Qed.

Lemma in_place_run_witness :
  InPlace.read
    (InPlace.correct_samples_with_zero_radii
       [[0%nat; 1%nat]; [2%nat]] (1 / 1000)
       (fun o => mkSample (Mathutils.mkVector (INR o) 0 0) (INR o)))
    [[0%nat; 1%nat]; [2%nat]]
  = Samples.correct_samples_with_zero_radii
      (InPlace.read
         (fun o => mkSample (Mathutils.mkVector (INR o) 0 0) (INR o))
         [[0%nat; 1%nat]; [2%nat]])
      (1 / 1000).
Proof.
  apply (proj2 (in_place_run [[0%nat; 1%nat]; [2%nat]] (1 / 1000) _)).
  unfold InPlace.separate.
  constructor; [| constructor; [constructor | constructor]].
  constructor; [| constructor].
  intros o [<- | [<- | []]] [H | []]; discriminate.
Defined.

(** The length of a section depends on the points of its samples only. *)
Lemma segment_lengths_points (l l' : list Sample) :
  map point l = map point l' ->
  map segment_length (segments l) = map segment_length (segments l').
Proof.
  revert l'; induction l as [| s0 l IH]; intros l' H.
  - destruct l'; [reflexivity | discriminate].
  - destruct l' as [| s0' l']; [discriminate |].
    injection H as H0 H.
    destruct l as [| s1 l]; destruct l' as [| s1' l']; try discriminate;
      trivial.
    change (segments (s0 :: s1 :: l)) with ((s0, s1) :: segments (s1 :: l)).
    change (segments (s0' :: s1' :: l'))
      with ((s0', s1') :: segments (s1' :: l')).
    cbn [map]. rewrite (IH (s1' :: l') H). f_equal.
    unfold segment_length. cbn [fst snd].
    injection H as H1 _. now rewrite H0, H1.
Qed.

Lemma section_length_points (section section' : Section) :
  map point (samples section) = map point (samples section') ->
  Sections.compute_section_length section
  = Sections.compute_section_length section'.
Proof.
  intros H. rewrite !section_length_segments.
  now rewrite (segment_lengths_points _ _ H).
Qed.

(** X11: [correct_samples_with_zero_radii] does not change the lengths of
    the sections: [compute_sections_length_distributions] returns the same
    list before and after it. *)
Theorem correction_keeps_lengths (sections : list Section) (epsilon : R) :
  Sections.compute_sections_length_distributions
    {| sections_list :=
         Samples.correct_samples_with_zero_radii sections epsilon |}
  = Sections.compute_sections_length_distributions
      {| sections_list := sections |}.
Proof.
  unfold Sections.compute_sections_length_distributions.
  rewrite !(append_map_acc Sections.compute_section_length).
  cbn [sections_list app].
  pose proof (correction_points sections epsilon) as H.
  induction H as [| before after l l' Hpoints _ IH]; simpl; trivial.
  rewrite IH. f_equal. now apply section_length_points.
Qed.

(** * Further properties of [sections.py] *)

(** ** Lengths *)

Lemma distance_nonneg (p q : Mathutils.Vector) : 0 <= distance p q.
Proof. unfold distance. apply sqrt_pos. Qed.

Lemma Rsum_nonneg (l : list R) : (forall r, In r l -> 0 <= r) -> 0 <= Rsum l.
Proof.
  induction l as [| r l IH]; intros H; simpl; [lra |].
  pose proof (H r (or_introl eq_refl)).
  assert (0 <= Rsum l) by (apply IH; intros; apply H; now right).
  unfold Rsum in *. lra.
Qed.

Lemma compute_section_length_nonneg (section : Section) :
  0 <= Sections.compute_section_length section.
Proof.
  rewrite section_length_segments.
  apply Rsum_nonneg. intros r Hr.
  apply in_map_iff in Hr as (s & <- & _). apply distance_nonneg.
Qed.

(** What the volume loop computes, for every section. *)
Lemma section_volume_segments (section : Section) :
  Sections.compute_section_volume section = segments_volume section.
Proof.
  unfold Sections.compute_section_volume, segments_volume.
  destruct (List.length (samples section) <? 2)%nat eqn:Hlen.
  - apply Nat.ltb_lt in Hlen. now rewrite segments_few.
  - rewrite (fold_range_segments
               (fun acc s0 s1 =>
                  acc + (1 / 3) * PI
                        * Mathutils.length (Mathutils.sub (point s0) (point s1))
                        * (radius s0 * radius s0 + radius s0 * radius s1
                           + radius s1 * radius s1))).
    rewrite (fold_left_add_Rsum
               (fun s =>
                  (1 / 3) * PI
                  * Mathutils.length
                      (Mathutils.sub (point (fst s)) (point (snd s)))
                  * (radius (fst s) * radius (fst s)
                     + radius (fst s) * radius (snd s)
                     + radius (snd s) * radius (snd s)))).
    rewrite Rplus_0_l. f_equal.
    apply map_ext; intros s.
    unfold frustum_volume, segment_length.
    rewrite length_sub_distance. field.
Qed.

Lemma segments_in (l : list Sample) (s : Sample * Sample) :
  In s (segments l) -> In (fst s) l /\ In (snd s) l.
Proof.
  induction l as [| s0 l IH]; [contradiction |].
  destruct l as [| s1 l]; [contradiction |].
  change (segments (s0 :: s1 :: l)) with ((s0, s1) :: segments (s1 :: l)).
  intros [<- | Hin].
  - simpl. auto.
  - destruct (IH Hin). split; now right.
Qed.

(** X14: the surface area [compute_section_surface_area] returns is the sum
    over the segments of pi*(r0+r1)*sqrt((r0-r1)^2 + L) + pi*(r0^2+r1^2),
    with L the length of the segment; it is 0 for fewer than 2 samples, and
    on a section without a negative radius it is never negative. *)
Theorem compute_section_surface_area_computed (section : Section) :
  Sections.compute_section_surface_area section
  = Rsum (map coded_segment_area (segments (samples section)))
  /\ ((List.length (samples section) < 2)%nat ->
      Sections.compute_section_surface_area section = 0)
  /\ ((forall sample, In sample (samples section) -> 0 <= radius sample) ->
      0 <= Sections.compute_section_surface_area section).
Proof.
  rewrite surface_area_coded. split; [reflexivity |]. split.
  - intros H. now rewrite segments_few.
  - intros H. apply Rsum_nonneg. intros r Hr.
    apply in_map_iff in Hr as (s & <- & Hs).
    apply segments_in in Hs as [H0 H1].
    apply H in H0. apply H in H1.
    unfold coded_segment_area, caps_area.
    pose proof PI_RGT_0 as Hpi.
    pose proof (sqrt_pos ((radius (fst s) - radius (snd s)) ^ 2
                          + segment_length s)) as Hsqrt.
    pose proof (pow2_ge_0 (radius (fst s))).
    pose proof (pow2_ge_0 (radius (snd s))).
    apply Rplus_le_le_0_compat.
    + apply Rmult_le_pos; [apply Rmult_le_pos |]; lra.
    + apply Rmult_le_pos; lra.
Qed.

Lemma compute_section_surface_area_computed_witness :
  0 <= Sections.compute_section_surface_area
         {| samples := [ mkSample (Mathutils.mkVector 0 0 0) 1;
                         mkSample (Mathutils.mkVector 1 0 0) 2 ] |}
  /\ Sections.compute_section_surface_area
       {| samples := [ mkSample (Mathutils.mkVector 0 0 0) 1 ] |} = 0.
Proof.
  split.
  - apply (proj2 (proj2 (compute_section_surface_area_computed _))).
    intros sample [<- | [<- | []]]; simpl; lra.
  - apply (proj1 (proj2 (compute_section_surface_area_computed _))).
    simpl. lia.
Defined.

(** X15: the volume [compute_section_volume] returns is never negative,
    whatever the radii of the samples. *)
Theorem compute_section_volume_nonneg (section : Section) :
  0 <= Sections.compute_section_volume section.
Proof.
  rewrite section_volume_segments. unfold segments_volume.
  apply Rsum_nonneg. intros v Hv.
  apply in_map_iff in Hv as (s & <- & _).
  unfold frustum_volume, segment_length.
  pose proof PI_RGT_0 as Hpi.
  pose proof (distance_nonneg (point (fst s)) (point (snd s))) as HL.
  assert (Hq : 0 <= radius (fst s) ^ 2 + radius (fst s) * radius (snd s)
                    + radius (snd s) ^ 2).
  { pose proof (pow2_ge_0 (radius (fst s) + radius (snd s))).
    pose proof (pow2_ge_0 (radius (fst s))).
    pose proof (pow2_ge_0 (radius (snd s))).
    simpl in *. lra. }
  apply Rmult_le_pos; [apply Rmult_le_pos |]; lra.
Qed.

(** ** Mean radius of a section *)

Lemma average_radius_value (section : Section) :
  samples section <> [] ->
  Sections.compute_section_average_radius section
  = Ok (mean_radius section).
Proof.
  intros Hne. unfold Sections.compute_section_average_radius, py_div.
  destruct (Req_dec_T (INR (List.length (samples section))) 0) as [H0 | _].
  - apply (INR_eq _ 0%nat) in H0.
    destruct (samples section); [contradiction | discriminate].
  - now rewrite mean_radius_loop.
Qed.

Lemma average_radius_raises (section : Section) :
  samples section = [] ->
  Sections.compute_section_average_radius section = Raise ZeroDivisionError.
Proof.
  intros Hnil. unfold Sections.compute_section_average_radius, py_div.
  rewrite Hnil. simpl.
  destruct (Req_dec_T 0 0) as [_ | H]; [reflexivity | now contradiction H].
Qed.

(** X16: [compute_section_average_radius] raises [ZeroDivisionError] on a
    section without samples, and on no other section; on a section that has
    samples it returns the sum of the radii divided by their number. *)
Theorem compute_section_average_radius_spec (section : Section) :
  (samples section = [] ->
   Sections.compute_section_average_radius section = Raise ZeroDivisionError)
  /\ (samples section <> [] ->
      Sections.compute_section_average_radius section
      = Ok (Rsum (map radius (samples section))
            / INR (List.length (samples section))))
  /\ ((exists mean,
          Sections.compute_section_average_radius section = Ok mean)
      <-> samples section <> []).
Proof.
  split; [apply average_radius_raises |].
  split; [apply average_radius_value |].
  split.
  - intros [mean Hmean] Hnil.
    rewrite average_radius_raises in Hmean by trivial. discriminate.
  - intros Hne. eexists. now apply average_radius_value.
Qed.

Lemma compute_section_average_radius_spec_witness :
  Sections.compute_section_average_radius {| samples := [] |}
  = Raise ZeroDivisionError
  /\ Sections.compute_section_average_radius
       {| samples := [ mkSample (Mathutils.mkVector 0 0 0) 1;
                       mkSample (Mathutils.mkVector 1 0 0) 3 ] |}
     = Ok (Rsum [1; 3] / INR 2).
Proof.
  split.
  - apply (proj1 (compute_section_average_radius_spec _)). reflexivity.
  - apply (proj1 (proj2 (compute_section_average_radius_spec
                           {| samples :=
                                [ mkSample (Mathutils.mkVector 0 0 0) 1;
                                  mkSample (Mathutils.mkVector 1 0 0) 3 ] |}))).
    discriminate.
Defined.

(** ** The radius correction and the mean radius *)

(** A mean that [compute_section_average_radius] returns is the mean of a
    section that has samples. *)
Lemma average_radius_returned (section : Section) (mean : R) :
  Sections.compute_section_average_radius section = Ok mean ->
  samples section <> [] /\ mean = mean_radius section.
Proof.
  intros Hmean.
  destruct (samples section) as [| s0 rest] eqn:Hs.
  - rewrite average_radius_raises in Hmean by trivial. discriminate.
  - rewrite average_radius_value in Hmean by (rewrite Hs; discriminate).
    injection Hmean as <-. split; [discriminate | reflexivity].
Qed.

(** X8: on a store where no sample object belongs to two sections and where
    [compute_section_average_radius] returns, for every section, a mean that
    is not below [epsilon], no sample of the sections has a radius below
    [epsilon] after [correct_samples_with_zero_radii]:
    [analyze_samples_with_zero_radii] then counts 0 on the radius
    distribution. *)
Theorem in_place_correction_clears
        (sections : list (list InPlace.ref)) (epsilon : R)
        (store : InPlace.Store) :
  InPlace.separate sections ->
  Forall (fun section =>
            exists mean,
              Sections.compute_section_average_radius
                {| samples := map store section |} = Ok mean
              /\ epsilon <= mean)
         sections ->
  (forall section o,
      In section sections -> In o section ->
      epsilon
      <= radius (InPlace.correct_samples_with_zero_radii
                   sections epsilon store o))
  /\ Samples.analyze_samples_with_zero_radii
       (Samples.compute_sample_radius_distribution
          {| sections_list :=
               InPlace.read
                 (InPlace.correct_samples_with_zero_radii
                    sections epsilon store)
                 sections |})
       epsilon
     = 0%nat.
Proof.
  intros Hseparate Hmeans.
  assert (Hvalue : Forall (fun section => samples section <> []
                                          /\ epsilon <= mean_radius section)
                          (InPlace.read store sections)).
  { clear Hseparate.
    induction Hmeans as [| section l (mean & Hmean & Hle) _ IH];
      simpl; constructor; trivial.
    apply average_radius_returned in Hmean as [Hne ->]. now split. }
  pose proof (correction_clears_all _ epsilon Hvalue) as Hall.
  rewrite <- in_place_agrees in Hall by trivial.
  split.
  - intros section o Hsection Ho. apply Hall.
    unfold radii_of, InPlace.read. apply in_flat_map.
    exists {| samples :=
                map (InPlace.correct_samples_with_zero_radii
                       sections epsilon store) section |}.
    split.
    + apply in_map_iff. now exists section.
    + cbn [samples]. rewrite map_map. apply in_map_iff. now exists o.
  - rewrite radius_distribution_radii_of, zero_radii_loop. cbn [sections_list].
    now apply count_below_zero_iff.
Qed.

Lemma in_place_correction_clears_witness :
  Samples.analyze_samples_with_zero_radii
    (Samples.compute_sample_radius_distribution
       {| sections_list :=
            InPlace.read
              (InPlace.correct_samples_with_zero_radii
                 [[0; 1]; [2]]%nat (1 / 1000) three_samples)
              [[0; 1]; [2]]%nat |})
    (1 / 1000)
  = 0%nat.
Proof.
  refine (proj2 (in_place_correction_clears
                   [[0; 1]; [2]]%nat (1 / 1000) three_samples _ _)).
  - unfold InPlace.separate.
    constructor; [| constructor; [constructor | constructor]].
    constructor; [| constructor].
    intros o [<- | [<- | []]] [H | []]; discriminate.
  - constructor; [| constructor; [| constructor]].
    + eexists. split; [apply average_radius_value; discriminate |].
      unfold mean_radius. simpl. lra.
    + eexists. split; [apply average_radius_value; discriminate |].
      unfold mean_radius. simpl. lra.
Defined.

(** X9: on a store where no sample object belongs to two sections and where
    [compute_section_average_radius] returns, for every section that has
    samples, a mean that is not below [epsilon], a second run of
    [correct_samples_with_zero_radii] changes no sample object. *)
Theorem in_place_correction_idempotent
        (sections : list (list InPlace.ref)) (epsilon : R)
        (store : InPlace.Store) :
  InPlace.separate sections ->
  Forall (fun section =>
            section <> [] ->
            exists mean,
              Sections.compute_section_average_radius
                {| samples := map store section |} = Ok mean
              /\ epsilon <= mean)
         sections ->
  forall o,
    InPlace.correct_samples_with_zero_radii sections epsilon
      (InPlace.correct_samples_with_zero_radii sections epsilon store) o
    = InPlace.correct_samples_with_zero_radii sections epsilon store o.
Proof.
  intros Hseparate Hmeans o.
  set (once := InPlace.correct_samples_with_zero_radii sections epsilon store).
  assert (Hvalue : Forall (fun section => samples section <> [] ->
                                          epsilon <= mean_radius section)
                          (InPlace.read store sections)).
  { clear Hseparate once.
    induction Hmeans as [| section l Hmean _ IH]; simpl; constructor; trivial.
    cbn [samples]. intros Hne.
    destruct Hmean as (mean & Hmean & Hle).
    - intros ->. now apply Hne.
    - now apply average_radius_returned in Hmean as [_ ->]. }
  assert (Hreads : InPlace.read
                     (InPlace.correct_samples_with_zero_radii
                        sections epsilon once) sections
                   = InPlace.read once sections).
  { unfold once. rewrite !in_place_agrees by trivial.
    now apply corrected_list_fixed. }
  destruct (in_dec Nat.eq_dec o (List.concat sections)) as [Hin | Hout].
  - apply in_concat in Hin as (section & Hsection & Ho).
    unfold InPlace.read in Hreads.
    pose proof (proj1 map_ext_in_iff Hreads section Hsection) as Hs.
    injection Hs as Hs.
    exact (proj1 map_ext_in_iff Hs o Ho).
  - apply in_place_frame. intros section Hsection Ho.
    apply Hout. apply in_concat. now exists section.
Qed.

Lemma in_place_correction_idempotent_witness :
  InPlace.correct_samples_with_zero_radii [[0; 1]; []; [2]]%nat (1 / 1000)
    (InPlace.correct_samples_with_zero_radii
       [[0; 1]; []; [2]]%nat (1 / 1000) three_samples) 0%nat
  = InPlace.correct_samples_with_zero_radii
      [[0; 1]; []; [2]]%nat (1 / 1000) three_samples 0%nat.
Proof.
  apply in_place_correction_idempotent.
  - unfold InPlace.separate.
    constructor; [| constructor; [| constructor; [constructor | constructor]]].
    + constructor; [| constructor; [| constructor]].
      * intros o _ [].
      * intros o [<- | [<- | []]] [H | []]; discriminate.
    + constructor; [| constructor]. intros o [].
  - constructor; [| constructor; [| constructor; [| constructor]]].
    + intros _. eexists. split; [apply average_radius_value; discriminate |].
      unfold mean_radius. simpl. lra.
    + intros H. now contradiction H.
    + intros _. eexists. split; [apply average_radius_value; discriminate |].
      unfold mean_radius. simpl. lra.
Defined.

(** ** Counting sections *)

(** A loop that increments a counter on a test counts the items that pass
    the test. *)
Lemma count_loop {A : Type} (test : A -> bool) (l : list A) (acc : nat) :
  fold_left (fun n a => if test a then (n + 1)%nat else n) l acc
  = (acc + List.length (filter test l))%nat.
Proof.
  revert acc; induction l as [| a l IH]; intros acc; simpl; [lia |].
  rewrite IH. destruct (test a); simpl; lia.
Qed.

Lemma filter_length_implies {A : Type} (f g : A -> bool) (l : list A) :
  (forall a, f a = true -> g a = true) ->
  (List.length (filter f l) <= List.length (filter g l))%nat.
Proof.
  intros H. induction l as [| a l IH]; simpl; trivial.
  destruct (f a) eqn:Hf.
  - rewrite (H a Hf). simpl. lia.
  - destruct (g a); simpl; lia.
Qed.

(** X17: [compute_number_of_short_sections] counts the sections on which
    [is_short_section] is true; the count is at most the number of sections
    that have at least two samples, hence at most
    [compute_total_number_sections], and the count of a list followed by
    another is the sum of the two counts. *)
Theorem compute_number_of_short_sections_spec (sections : list Section) :
  Sections.compute_number_of_short_sections sections
  = List.length (filter Sections.is_short_section sections)
  /\ (Sections.compute_number_of_short_sections sections
      <= List.length
           (filter (fun section => (2 <=? List.length (samples section))%nat)
                   sections))%nat
  /\ (Sections.compute_number_of_short_sections sections
      <= Sections.compute_total_number_sections sections)%nat
  /\ (forall more,
         Sections.compute_number_of_short_sections (sections ++ more)
         = (Sections.compute_number_of_short_sections sections
            + Sections.compute_number_of_short_sections more)%nat).
Proof.
  unfold Sections.compute_number_of_short_sections,
    Sections.compute_total_number_sections.
  rewrite !(count_loop Sections.is_short_section). cbn [Nat.add].
  split; [reflexivity |]. split; [| split].
  - apply filter_length_implies. intros section Hshort.
    unfold Sections.is_short_section in Hshort.
    destruct (1 <? List.length (samples section))%nat eqn:Hlen;
      [| discriminate].
    apply Nat.ltb_lt in Hlen. apply Nat.leb_le. lia.
  - apply filter_length_le.
  - intros more. rewrite !(count_loop Sections.is_short_section).
    rewrite filter_app, length_app. lia.
Qed.

(** X18: [compute_number_of_sections_with_two_samples] counts the sections
    that have exactly two samples; the count is at most
    [compute_total_number_sections], and twice the count is at most the
    number of samples that
    [compute_total_of_number_samples_from_sections_list] returns. *)
Theorem compute_number_of_sections_with_two_samples_spec
        (sections : list Section) :
  Sections.compute_number_of_sections_with_two_samples sections
  = List.length
      (filter (fun section => (List.length (samples section) =? 2)%nat)
              sections)
  /\ (Sections.compute_number_of_sections_with_two_samples sections
      <= Sections.compute_total_number_sections sections)%nat
  /\ (2 * Sections.compute_number_of_sections_with_two_samples sections
      <= Samples.compute_total_of_number_samples_from_sections_list sections)%nat.
Proof.
  unfold Sections.compute_number_of_sections_with_two_samples,
    Sections.compute_total_number_sections,
    Samples.compute_total_of_number_samples_from_sections_list.
  rewrite (count_loop
             (fun section => (List.length (samples section) =? 2)%nat)).
  rewrite total_of_number_samples_acc. cbn [Nat.add].
  split; [reflexivity |]. split; [apply filter_length_le |].
  unfold total_samples.
  induction sections as [| section l IH]; simpl; [lia |].
  destruct (List.length (samples section) =? 2)%nat eqn:Htwo; simpl.
  - apply Nat.eqb_eq in Htwo. lia.
  - lia.
Qed.

(** ** Distributions over the sections *)

(** X19: the three distribution functions return one value per section, in
    section order: the length, the surface area and the volume of the
    section as [compute_section_length], [compute_section_surface_area] and
    [compute_section_volume] return them; each list has as many entries as
    [compute_total_number_sections] counts. *)
Theorem sections_distributions_spec (morphology_object : Morphology) :
  let sections := sections_list morphology_object in
  Sections.compute_sections_length_distributions morphology_object
  = map Sections.compute_section_length sections
  /\ Sections.compute_sections_surface_area_distribution morphology_object
     = map Sections.compute_section_surface_area sections
  /\ Sections.compute_sections_volume_distribution morphology_object
     = map Sections.compute_section_volume sections
  /\ List.length
       (Sections.compute_sections_length_distributions morphology_object)
     = Sections.compute_total_number_sections sections
  /\ List.length
       (Sections.compute_sections_surface_area_distribution morphology_object)
     = Sections.compute_total_number_sections sections
  /\ List.length
       (Sections.compute_sections_volume_distribution morphology_object)
     = Sections.compute_total_number_sections sections.
Proof.
  cbn zeta.
  unfold Sections.compute_sections_length_distributions,
    Sections.compute_sections_surface_area_distribution,
    Sections.compute_sections_volume_distribution,
    Sections.compute_total_number_sections.
  rewrite (append_map_acc Sections.compute_section_length),
    (append_map_acc Sections.compute_section_surface_area),
    (append_map_acc Sections.compute_section_volume).
  cbn [app]. rewrite !length_map. repeat split.
Qed.

(** X20: [analyze_sections_length] raises [ValueError] on an empty sections
    list; on any other list it returns a minimum, a maximum and a mean,
    where 0 <= minimum <= maximum, the minimum and the maximum are the
    lengths of two of the sections and bound the length of every section,
    and the mean is the sum of the lengths divided by the number of
    sections. *)
Theorem analyze_sections_length_spec (sections : list Section) :
  (sections = [] ->
   Sections.analyze_sections_length sections = Raise ValueError)
  /\ (sections <> [] ->
      exists minimum maximum average,
        Sections.analyze_sections_length sections
        = Ok (minimum, maximum, average)
        /\ 0 <= minimum /\ minimum <= maximum
        /\ average
           = Rsum (map Sections.compute_section_length sections)
             / INR (List.length sections)
        /\ (exists section, In section sections
                            /\ Sections.compute_section_length section
                               = minimum)
        /\ (exists section, In section sections
                            /\ Sections.compute_section_length section
                               = maximum)
        /\ (forall section, In section sections ->
              minimum <= Sections.compute_section_length section <= maximum)).
Proof.
  unfold Sections.analyze_sections_length.
  rewrite (append_map_acc Sections.compute_section_length). cbn [app].
  split; [intros ->; reflexivity |].
  intros Hne.
  destruct sections as [| first_section rest]; [contradiction |].
  set (sections := first_section :: rest).
  cbn [map].
  set (first := Sections.compute_section_length first_section).
  set (others := map Sections.compute_section_length rest).
  destruct (min_loop_spec others first) as [Hmin_in Hmin_le].
  destruct (max_loop_spec others first) as [Hmax_in Hmax_le].
  change (first :: others)
    with (map Sections.compute_section_length sections) in *.
  set (lengths := map Sections.compute_section_length sections) in *.
  exists (fold_left (fun best item => if Rltb item best then item else best)
                    others first),
         (fold_left (fun best item => if Rgtb item best then item else best)
                    others first),
         (Rsum lengths / INR (List.length lengths)).
  set (minimum := fold_left _ others first) in *.
  set (maximum := fold_left _ others first) in *.
  split; [| split; [| split; [| split; [| split; [| split]]]]].
  - unfold py_min, py_max, py_div, bind.
    change (map Sections.compute_section_length (first_section :: rest))
      with lengths.
    destruct (Req_dec_T (1 * INR (List.length lengths)) 0) as [H0 | _].
    + exfalso. rewrite Rmult_1_l in H0.
      apply (INR_eq _ 0%nat) in H0. discriminate.
    + now rewrite py_sum_Rsum, Rmult_1_l.
  - apply in_map_iff in Hmin_in as (section & <- & _).
    apply compute_section_length_nonneg.
  - now apply Hmin_le.
  - unfold lengths. now rewrite length_map.
  - apply in_map_iff in Hmin_in as (section & Heq & Hin). now exists section.
  - apply in_map_iff in Hmax_in as (section & Heq & Hin). now exists section.
  - intros section Hin. split.
    + apply Hmin_le. now apply in_map.
    + apply Hmax_le. now apply in_map.
Qed.

Lemma analyze_sections_length_spec_witness :
  Sections.analyze_sections_length [] = Raise ValueError
  /\ exists minimum maximum average,
      Sections.analyze_sections_length
        [ {| samples := [ mkSample (Mathutils.mkVector 0 0 0) 1;
                          mkSample (Mathutils.mkVector 3 4 0) 1 ] |};
          {| samples := [ mkSample (Mathutils.mkVector 0 0 0) 1 ] |} ]
      = Ok (minimum, maximum, average)
      /\ 0 <= minimum /\ minimum <= maximum.
Proof.
  split.
  - apply (proj1 (analyze_sections_length_spec [])). reflexivity.
  - destruct (proj2 (analyze_sections_length_spec
                       [ {| samples := [ mkSample (Mathutils.mkVector 0 0 0) 1;
                                         mkSample (Mathutils.mkVector 3 4 0) 1 ] |};
                         {| samples := [ mkSample (Mathutils.mkVector 0 0 0) 1 ] |} ]))
      as (minimum & maximum & average & Hok & Hmin & Horder & _).
    + discriminate.
    + exists minimum, maximum, average. auto.
Defined.

Lemma average_radius_loop_raised (sections : list Section) (e : PyError) :
  fold_left
    (fun data i_section =>
       data <- data ;;
       average_radius <- Sections.compute_section_average_radius i_section ;;
       Ok (data ++ [average_radius]))
    sections (Raise e)
  = Raise e.
Proof. induction sections as [| section l IH]; simpl; trivial. Qed.

Lemma average_radius_loop (sections : list Section) (data : list R) :
  fold_left
    (fun data i_section =>
       data <- data ;;
       average_radius <- Sections.compute_section_average_radius i_section ;;
       Ok (data ++ [average_radius]))
    sections (Ok data)
  = if forallb (fun section => negb (List.length (samples section) =? 0)%nat)
               sections
    then Ok (data ++ map mean_radius sections)
    else Raise ZeroDivisionError.
Proof.
  revert data; induction sections as [| section l IH]; intros data.
  - simpl. now rewrite app_nil_r.
  - cbn [fold_left forallb map bind].
    destruct (samples section) as [| s0 rest] eqn:Hs.
    + rewrite average_radius_raises by trivial. cbn [bind List.length Nat.eqb negb andb].
      apply average_radius_loop_raised.
    + rewrite average_radius_value by (rewrite Hs; discriminate).
      cbn [bind List.length Nat.eqb negb andb].
      rewrite IH, <- app_assoc. reflexivity.
Qed.

(** X21: [compute_sections_average_radius_distributions] returns the mean
    radius of each section, in section order, when every section has a
    sample; as soon as one section has none it raises [ZeroDivisionError]
    and returns no list. *)
Theorem compute_sections_average_radius_distributions_spec
        (morphology_object : Morphology) :
  (Forall (fun section => samples section <> [])
          (sections_list morphology_object) ->
   Sections.compute_sections_average_radius_distributions morphology_object
   = Ok (map (fun section =>
                Rsum (map radius (samples section))
                / INR (List.length (samples section)))
             (sections_list morphology_object)))
  /\ (Exists (fun section => samples section = [])
             (sections_list morphology_object) ->
      Sections.compute_sections_average_radius_distributions morphology_object
      = Raise ZeroDivisionError).
Proof.
  unfold Sections.compute_sections_average_radius_distributions.
  rewrite average_radius_loop. cbn [app].
  set (sections := sections_list morphology_object).
  split; intros H.
  - replace (forallb _ sections) with true; [reflexivity |].
    symmetry. apply forallb_forall. intros section Hin.
    rewrite Forall_forall in H. specialize (H section Hin).
    destruct (samples section); [contradiction | reflexivity].
  - replace (forallb _ sections) with false; [reflexivity |].
    symmetry. apply not_true_is_false. intros Hall.
    rewrite forallb_forall in Hall.
    apply Exists_exists in H as (section & Hin & Hnil).
    specialize (Hall section Hin). now rewrite Hnil in Hall.
Qed.

Lemma compute_sections_average_radius_distributions_spec_witness :
  Sections.compute_sections_average_radius_distributions
    {| sections_list :=
         [ {| samples := [ mkSample (Mathutils.mkVector 0 0 0) 1 ] |};
           {| samples := [] |} ] |}
  = Raise ZeroDivisionError
  /\ Sections.compute_sections_average_radius_distributions
       {| sections_list :=
            [ {| samples := [ mkSample (Mathutils.mkVector 0 0 0) 1;
                              mkSample (Mathutils.mkVector 1 0 0) 3 ] |} ] |}
     = Ok [Rsum [1; 3] / INR 2].
Proof.
  split.
  - apply (proj2 (compute_sections_average_radius_distributions_spec _)).
    apply Exists_cons_tl, Exists_cons_hd. reflexivity.
  - apply (proj1 (compute_sections_average_radius_distributions_spec
                    {| sections_list :=
                         [ {| samples :=
                                [ mkSample (Mathutils.mkVector 0 0 0) 1;
                                  mkSample (Mathutils.mkVector 1 0 0) 3 ] |} ]
                    |})).
    constructor; [discriminate | constructor].
Defined.

(** * Further properties of [strings.py] *)

(** The file system that the writers leave: the text in the file, the
    other files as they were. *)
Lemma write_distribution_result {V : Type} (str : V -> string)
      (distribution : list V) (file_path : string) (fs : Writers.FileSystem)
      (q : string) :
  Writers.write_distribution_to_file str distribution file_path fs q
  = if String.eqb q file_path then Some (distribution_text str distribution)
    else fs q.
Proof.
  unfold Writers.write_distribution_to_file, Writers.open_w, Writers.close.
  destruct (write_loop str distribution (Writers.mkFileHandle file_path)
              (fun p => if String.eqb p file_path then Some EmptyString
                        else fs p)
              EmptyString) as [Hfile Hothers].
  { simpl. now rewrite String.eqb_refl. }
  cbn [Writers.name] in Hfile, Hothers. cbn [append] in Hfile.
  destruct (String.eqb_spec q file_path) as [-> | Hne].
  - exact Hfile.
  - rewrite Hothers by trivial.
    now rewrite (proj2 (String.eqb_neq _ _) Hne).
Qed.

Lemma write_list_string_result (list_strings : list string)
      (file_path : string) (fs : Writers.FileSystem) (q : string) :
  Writers.write_list_string_to_file list_strings file_path fs q
  = if String.eqb q file_path
    then Some (distribution_text (fun s => s) list_strings)
    else fs q.
Proof.
  exact (write_distribution_result (fun s => s) list_strings file_path fs q).
Qed.

Lemma write_string_result (text file_path : string) (fs : Writers.FileSystem)
      (q : string) :
  Writers.write_string_to_file text file_path fs q
  = if String.eqb q file_path then Some text else fs q.
Proof.
  unfold Writers.write_string_to_file, Writers.open_w, Writers.close,
    Writers.write.
  cbn [Writers.name].
  destruct (String.eqb q file_path); reflexivity.
Qed.

Lemma distribution_text_map {V : Type} (str : V -> string) (l : list V) :
  distribution_text (fun s => s) (map str l) = distribution_text str l.
Proof.
  induction l as [| v l IH]; [reflexivity |].
  cbn [map distribution_text fold_right].
  fold (distribution_text (fun s : string => s) (map str l)).
  fold (distribution_text str l).
  now rewrite IH.
Qed.

(** X22: after [write_string_to_file] the file holds exactly the string,
    whatever it held before and whether it existed or not; no other file is
    touched; of two writes to the same path the later one wins. *)
Theorem write_string_to_file_spec (text file_path : string)
        (fs : Writers.FileSystem) :
  Writers.write_string_to_file text file_path fs file_path = Some text
  /\ (forall q, q <> file_path ->
                Writers.write_string_to_file text file_path fs q = fs q)
  /\ (forall earlier q,
         Writers.write_string_to_file text file_path
           (Writers.write_string_to_file earlier file_path fs) q
         = Writers.write_string_to_file text file_path fs q).
Proof.
  split; [| split].
  - now rewrite write_string_result, String.eqb_refl.
  - intros q Hq.
    now rewrite write_string_result, (proj2 (String.eqb_neq _ _) Hq).
  - intros earlier q. rewrite !write_string_result.
    destruct (String.eqb q file_path); reflexivity.
Qed.

Lemma write_string_to_file_spec_witness :
  Writers.write_string_to_file "radii" "a.txt"
    (fun p => if String.eqb p "b.txt" then Some "kept"%string else None)
    "b.txt"%string
  = Some "kept"%string.
Proof.
  rewrite (proj1 (proj2 (write_string_to_file_spec "radii" "a.txt" _))
             "b.txt"%string).
  - reflexivity.
  - discriminate.
Defined.

(** X23: after [write_list_string_to_file] the file holds each string
    followed by a line terminator, in order, and no other file is touched;
    when no string holds a line terminator, reading the file line by line
    gives the list back. *)
Theorem write_list_string_to_file_roundtrip (list_strings : list string)
        (file_path : string) (fs : Writers.FileSystem) :
  let fs' := Writers.write_list_string_to_file list_strings file_path fs in
  fs' file_path = Some (distribution_text (fun s => s) list_strings)
  /\ (forall q, q <> file_path -> fs' q = fs q)
  /\ (Forall (fun s => single_line s = true) list_strings ->
      exists content,
        fs' file_path = Some content /\ lines content = list_strings).
Proof.
  cbn zeta. split; [| split].
  - now rewrite write_list_string_result, String.eqb_refl.
  - intros q Hq.
    now rewrite write_list_string_result, (proj2 (String.eqb_neq _ _) Hq).
  - intros Hlines. eexists. split.
    + now rewrite write_list_string_result, String.eqb_refl.
    + clear fs file_path.
      induction Hlines as [| s l Hs _ IH]; [reflexivity |].
      cbn [distribution_text fold_right].
      rewrite lines_first by trivial. f_equal. exact IH.
Qed.

Lemma write_list_string_to_file_roundtrip_witness :
  exists content,
    Writers.write_list_string_to_file ["1.5"; "radius"; ""]%string "a.txt"
      (fun _ => None) "a.txt"%string
    = Some content
    /\ lines content = ["1.5"; "radius"; ""]%string.
Proof.
  apply (proj2 (proj2 (write_list_string_to_file_roundtrip
                         ["1.5"; "radius"; ""]%string "a.txt"
                         (fun _ => None)))).
  repeat constructor.
Defined.

(** X24: the three writers agree: [write_distribution_to_file] leaves the
    file system that [write_list_string_to_file] leaves on the string forms
    of the values, which is the one [write_string_to_file] leaves on their
    lines joined into one text. *)
Theorem writers_agree {V : Type} (str : V -> string) (distribution : list V)
        (file_path : string) (fs : Writers.FileSystem) (q : string) :
  Writers.write_distribution_to_file str distribution file_path fs q
  = Writers.write_list_string_to_file (map str distribution) file_path fs q
  /\ Writers.write_list_string_to_file (map str distribution) file_path fs q
     = Writers.write_string_to_file
         (distribution_text str distribution) file_path fs q.
Proof.
  rewrite write_distribution_result, write_list_string_result,
    write_string_result, distribution_text_map.
  split; reflexivity.
Qed.
